(** * Shield text layout (openstreetmap-americana)

    A shallow embedding of the text-fitting code of the shield renderer:
    the shape constraint solvers, the table-driven width estimator, the
    layout engine and the text draw routines that mutate a canvas context;
    and of the test page that renders a table of shields, as far as it
    builds the table and counts its progress.

    JavaScript numbers are kept abstract behind the interface [JSNumber],
    so every function is written once, operation by operation as the source
    has it.  Two instances are given: the real numbers, the arithmetic the
    formulas are meant in, and IEEE binary64 ([PrimFloat]), the arithmetic
    the engine runs.

    A statement says which numbers it is about.  One made "in every number
    model" follows from the shape of the code and holds on binary64 as it
    does on the reals.  One made "over the reals" is an algebraic fact of
    the formulas: on binary64 it holds up to rounding, and where a product
    overflows or underflows it can fail, as the examples at the end of the
    file show.  One made "on binary64" is proved from the IEEE
    specification of the operations.

    The real instance has no NaN, no infinity and no rounding, its square
    root is 0 below 0 and its quotient by 0 is 0.  No statement below rests
    on these conventions: a statement that reads a quotient or a root
    either holds for the expression as written, or carries the hypotheses
    that keep the divisor away from 0 and the radicand at or above 0.

    A text is a [string]: a sequence of characters, each standing for one
    code unit of the JavaScript string.  The width table tells ASCII
    characters apart and sends every other code unit to its default. *)

From Stdlib Require Import QArith Reals Lra Lia ZArith List String Ascii Bool.
From Stdlib Require PrimFloat Uint63 Floats.
Import ListNotations.

Set Implicit Arguments.

(** ** JavaScript numbers *)

Declare Scope js_scope.
Delimit Scope js_scope with js.

Class JSNumber (num : Type) : Type := {
  lit : Q -> num;                 (* a numeric literal of the source *)
  add : num -> num -> num;
  sub : num -> num -> num;
  mul : num -> num -> num;
  div : num -> num -> num;
  Math_sqrt : num -> num;
  Math_min : num -> num -> num;
  Math_round : num -> num;
  truthy : num -> bool            (* ToBoolean: false on 0 and NaN *)
}.

Arguments lit {num _} q%_Q.

Notation "x + y" := (add x y) : js_scope.
Notation "x - y" := (sub x y) : js_scope.
Notation "x * y" := (mul x y) : js_scope.
Notation "x / y" := (div x y) : js_scope.

(** [text.length], an integer, as a number. *)
Definition ofNat {num} `{JSNumber num} (n : nat) : num :=
  lit (inject_Z (Z.of_nat n)).

(** [x || y] on numbers. *)
Definition jsOr {num} `{JSNumber num} (x y : num) : num :=
  if truthy x then x else y.

(** *** The real numbers: the arithmetic the formulas are written in. *)

#[export] Instance RealNumber : JSNumber R := {
  lit q := Q2R q;
  add := Rplus;
  sub := Rminus;
  mul := Rmult;
  div := Rdiv;
  Math_sqrt := sqrt;
  Math_min := Rmin;
  Math_round x := IZR (Int_part (x + / 2));
  truthy x := if Req_dec_T x 0 then false else true
}.

(** *** IEEE binary64: the arithmetic the engine runs. *)

Module Binary64.

(** Exact for the integers of the source's literals (below 2^53). *)
Definition ofZ (z : Z) : PrimFloat.float :=
  match z with
  | Z0 => PrimFloat.zero
  | Zpos _ => PrimFloat.of_uint63 (Uint63.of_Z z)
  | Zneg p => PrimFloat.opp (PrimFloat.of_uint63 (Uint63.of_Z (Zpos p)))
  end.

(** A literal [n/d] is the correctly rounded quotient of two exact
    integers, which is the double the decimal literal denotes. *)
Definition ofQ (q : Q) : PrimFloat.float :=
  PrimFloat.div (ofZ (Qnum q)) (ofZ (Zpos (Qden q))).

Definition isNaN (x : PrimFloat.float) : bool := negb (PrimFloat.eqb x x).

Definition isNegative (x : PrimFloat.float) : bool :=
  PrimFloat.ltb x PrimFloat.zero
  || PrimFloat.ltb (PrimFloat.div PrimFloat.one x) PrimFloat.zero.

(** [Math.min]: NaN when either argument is, and [-0] below [+0]. *)
Definition min (x y : PrimFloat.float) : PrimFloat.float :=
  if isNaN x || isNaN y then PrimFloat.nan
  else if PrimFloat.ltb x y then x
  else if PrimFloat.ltb y x then y
  else if isNegative x then x else y.

Definition two52 : PrimFloat.float := ofZ (2 ^ 52).

Definition half : PrimFloat.float := PrimFloat.div PrimFloat.one PrimFloat.two.

(** The largest integer not above [x], for [|x| < 2^52]. *)
Definition floor (x : PrimFloat.float) : PrimFloat.float :=
  let t :=
    if PrimFloat.ltb x PrimFloat.zero
    then PrimFloat.add (PrimFloat.sub x two52) two52
    else PrimFloat.sub (PrimFloat.add x two52) two52 in
  if PrimFloat.ltb x t then PrimFloat.sub t PrimFloat.one else t.

(** [Math.round]: the nearest integer, a tie going up; the sign of the
    argument is kept on a zero result. *)
Definition round (x : PrimFloat.float) : PrimFloat.float :=
  if PrimFloat.ltb (PrimFloat.abs x) two52 then
    let f := floor x in
    let r :=
      if PrimFloat.leb half (PrimFloat.sub x f)
      then PrimFloat.add f PrimFloat.one else f in
    if PrimFloat.eqb r PrimFloat.zero && isNegative x
    then PrimFloat.neg_zero else r
  else x.

Definition toBoolean (x : PrimFloat.float) : bool :=
  negb (PrimFloat.eqb x PrimFloat.zero || isNaN x).

End Binary64.

#[export] Instance FloatNumber : JSNumber PrimFloat.float := {
  lit := Binary64.ofQ;
  add := PrimFloat.add;
  sub := PrimFloat.sub;
  mul := PrimFloat.mul;
  div := PrimFloat.div;
  Math_sqrt := PrimFloat.sqrt;
  Math_min := Binary64.min;
  Math_round := Binary64.round;
  truthy := Binary64.toBoolean
}.

(** ** Data model *)

Section DataModel.

Variable num : Type.
Context {N : JSNumber num}.

(** [{width, height}] *)
Record Bounds : Type := { width : num; height : num }.

(** [{top, bottom, left, right}]; a field may be missing. *)
Record Padding : Type := {
  top : option num;
  bottom : option num;
  left : option num;
  right : option num
}.

(** The result of a constraint function, [{scale}]. *)
Record TextConstraint : Type := { scale : num }.

(** The layout engine's result, [{xBaseline, yBaseline, fontPx}]. *)
Record TextLayout : Type := {
  xBaseline : num;
  yBaseline : num;
  fontPx : num
}.

(** *** The canvas context, as far as the draw routines touch it.

    The context is a [CanvasRenderingContext2D]: drawing properties that
    the code assigns to, and a surface that receives text.  Each draw call
    is recorded with the properties in force when it was issued.

    The properties are set through the setters of the canvas, which do
    not store whatever they are given.  A color property ([fillStyle],
    [strokeStyle], [shadowColor]) keeps its value when it is assigned
    something that is no color, as [null] is; [shadowBlur] takes the
    number its argument converts to, which for [null] is 0.  A string
    that the code assigns as a color (["black"], [backgroundFill], a
    color read back from the context) is taken to be one, and stands for
    the color it denotes: the canvas may give a color back in another
    spelling, so an equation between two color properties below says
    that they hold the same color.  The stroke and fill styles of the
    caller are taken to be colors, not gradients or patterns.  The
    numbers the code assigns ([0] as blur, [2 * PXR] as line width, the
    pixel ratio being positive) are ones the setters accept. *)

(** A value assigned to a color property: [null], or a string. *)
Definition Style : Type := option string.

Record DrawState : Type := {
  textAlign : string;
  textBaseline : string;
  font : string;
  fillStyle : string;
  strokeStyle : string;
  shadowColor : string;
  shadowBlur : num;
  lineWidth : num
}.

Inductive DrawOp : Type := FillText | StrokeText.

Record DrawCall : Type := {
  op : DrawOp;
  drawnText : string;
  atX : num;
  atY : num;
  under : DrawState
}.

Record Context2D : Type := {
  canvas : Bounds;
  state : DrawState;
  calls : list DrawCall
}.

Definition withState (f : DrawState -> DrawState) (ctx : Context2D)
  : Context2D :=
  {| canvas := canvas ctx; state := f (state ctx); calls := calls ctx |}.

Definition set_textAlign (v : string) : Context2D -> Context2D :=
  withState (fun s =>
    {| textAlign := v; textBaseline := textBaseline s; font := font s;
       fillStyle := fillStyle s; strokeStyle := strokeStyle s;
       shadowColor := shadowColor s; shadowBlur := shadowBlur s;
       lineWidth := lineWidth s |}).

Definition set_textBaseline (v : string) : Context2D -> Context2D :=
  withState (fun s =>
    {| textAlign := textAlign s; textBaseline := v; font := font s;
       fillStyle := fillStyle s; strokeStyle := strokeStyle s;
       shadowColor := shadowColor s; shadowBlur := shadowBlur s;
       lineWidth := lineWidth s |}).

Definition set_font (v : string) : Context2D -> Context2D :=
  withState (fun s =>
    {| textAlign := textAlign s; textBaseline := textBaseline s; font := v;
       fillStyle := fillStyle s; strokeStyle := strokeStyle s;
       shadowColor := shadowColor s; shadowBlur := shadowBlur s;
       lineWidth := lineWidth s |}).

(** [ctx.fillStyle = v]: ignored when [v] is [null]. *)
Definition set_fillStyle (v : Style) : Context2D -> Context2D :=
  withState (fun s =>
    match v with
    | None => s
    | Some color =>
      {| textAlign := textAlign s; textBaseline := textBaseline s;
         font := font s;
         fillStyle := color; strokeStyle := strokeStyle s;
         shadowColor := shadowColor s; shadowBlur := shadowBlur s;
         lineWidth := lineWidth s |}
    end).

(** [ctx.strokeStyle = v]: ignored when [v] is [null]. *)
Definition set_strokeStyle (v : Style) : Context2D -> Context2D :=
  withState (fun s =>
    match v with
    | None => s
    | Some color =>
      {| textAlign := textAlign s; textBaseline := textBaseline s;
         font := font s;
         fillStyle := fillStyle s; strokeStyle := color;
         shadowColor := shadowColor s; shadowBlur := shadowBlur s;
         lineWidth := lineWidth s |}
    end).

(** [ctx.shadowColor = v]: ignored when [v] is [null]. *)
Definition set_shadowColor (v : Style) : Context2D -> Context2D :=
  withState (fun s =>
    match v with
    | None => s
    | Some color =>
      {| textAlign := textAlign s; textBaseline := textBaseline s;
         font := font s;
         fillStyle := fillStyle s; strokeStyle := strokeStyle s;
         shadowColor := color; shadowBlur := shadowBlur s;
         lineWidth := lineWidth s |}
    end).

(** [ctx.shadowBlur = v]: [null] converts to 0. *)
Definition set_shadowBlur (v : option num) : Context2D -> Context2D :=
  withState (fun s =>
    {| textAlign := textAlign s; textBaseline := textBaseline s; font := font s;
       fillStyle := fillStyle s; strokeStyle := strokeStyle s;
       shadowColor := shadowColor s;
       shadowBlur := match v with Some blur => blur | None => lit 0 end;
       lineWidth := lineWidth s |}).

Definition set_lineWidth (v : num) : Context2D -> Context2D :=
  withState (fun s =>
    {| textAlign := textAlign s; textBaseline := textBaseline s; font := font s;
       fillStyle := fillStyle s; strokeStyle := strokeStyle s;
       shadowColor := shadowColor s; shadowBlur := shadowBlur s;
       lineWidth := v |}).

Definition draw (o : DrawOp) (text : string) (x y : num) (ctx : Context2D)
  : Context2D :=
  {| canvas := canvas ctx; state := state ctx;
     calls := calls ctx ++
              [{| op := o; drawnText := text; atX := x; atY := y;
                  under := state ctx |}] |}.

(** [ctx.fillText(text, x, y)] and [ctx.strokeText(text, x, y)] *)
Definition fillText := draw FillText.
Definition strokeText := draw StrokeText.

End DataModel.

(** The part of a shield definition the layout reads; each property may be
    missing.  A field is read as [Def.padding def], [Def.maxFontSize def]. *)
Module Def.

Record ShieldTextDef (num : Type) : Type := {
  padding : option (Padding num);
  textLayoutConstraint :
    option (Bounds num -> Bounds num -> TextConstraint num);
  maxFontSize : option num
}.

End Def.

Abbreviation ShieldTextDef := Def.ShieldTextDef.

(** ** The imported modules

    Their source is outside this module; what the code reads of them is
    taken as a parameter. *)

(** [screen_gfx.js] *)
Class GfxModule (num : Type) : Type := {
  getPixelRatio : num;
  fontSizeThreshold : num;
  shieldFont : num -> string;
  getGfxContext : Bounds num -> Context2D num
}.

(** [shield_defs.js]: the banner geometry. *)
Class ShieldDefModule (num : Type) : Type := {
  bannerSizeH : num;
  bannerPadding : num;
  topPadding : num
}.

(** [constants/color.js] *)
Class ColorModule : Type := {
  backgroundFill : string
}.

(** ** The text module *)

Section ShieldText.

Context {num : Type} {N : JSNumber num}.
Context {Gfx : GfxModule num} {ShieldDef : ShieldDefModule num}.
Context {Color : ColorModule}.

Local Open Scope js_scope.

Definition PXR : num := getPixelRatio.

(** *** Shape constraint solver *)

Definition ellipseScale (spaceBounds textBounds : Bounds num) : num :=
  let a := width spaceBounds in
  let b := height spaceBounds in
  let x0 := width textBounds in
  let y0 := height textBounds in
  (a * b) / Math_sqrt (a * a * y0 * y0 + b * b * x0 * x0).

Definition ellipseTextConstraint (spaceBounds textBounds : Bounds num)
  : TextConstraint num :=
  {| scale := ellipseScale spaceBounds textBounds |}.

Definition southHalfellipseTextConstraint (spaceBounds textBounds : Bounds num)
  : TextConstraint num :=
  {| scale := ellipseScale spaceBounds
                {| height := width textBounds / lit 2;
                   width := height textBounds |} |}.

Definition rectTextConstraint (spaceBounds textBounds : Bounds num)
  : TextConstraint num :=
  let scaleHeight := height spaceBounds / height textBounds in
  let scaleWidth := width spaceBounds / width textBounds in
  {| scale := Math_min scaleWidth scaleHeight |}.

Definition roundedRectTextConstraint (spaceBounds textBounds : Bounds num)
  (radius : num) : TextConstraint num :=
  rectTextConstraint
    {| width := width spaceBounds - radius * (lit 2 - Math_sqrt (lit 2));
       height := height spaceBounds - radius * (lit 2 - Math_sqrt (lit 2)) |}
    textBounds.

(** *** Text metrics estimator *)

Definition widthOfChar (char : ascii) : num :=
  match char with
  | "I" | "-" => lit 1 / lit 3
  | "1" | "2" | "3" | "4" | "5" | "6" | "7" | "8" | "9" | "0" =>
      lit 1 / lit 2.75
  | "B" | "C" | "E" | "H" | "K" | "L" | "M" | "N" | "O" | "R" =>
      lit 1 / lit 1.9
  | "W" => lit 1 / lit 1.5
  | _ => lit 1 / lit 2.2
  end%char.

Definition widthOfText (text : string) (fontSize : num) : num :=
  let len := lit 0 in
  let len := len + (ofNat (String.length text) - lit 1) * lit 1 / lit 12 in
  let len :=
    fold_left (fun len char => len + widthOfChar char)
              (list_ascii_of_string text) len in
  fontSize * len.

Definition emHeightForFontSize (fontSize : num) : num :=
  fontSize * lit 3 / lit 4.

(** *** Layout engine *)

(** [p * PXR || 0] where the property [p] may be missing: the product
    with [undefined] is NaN, which [||] replaces as it replaces 0.  The
    function reads [PXR] anew from [Gfx.getPixelRatio()], the constant the
    module-level [PXR] holds. *)
Definition scaledOrZero (p : option num) : num :=
  match p with
  | Some v => jsOr (v * PXR) (lit 0)
  | None => lit 0
  end.

Definition layoutShieldText (text : string) (padding : Padding num)
  (bounds : Bounds num)
  (textLayoutFunc : Bounds num -> Bounds num -> TextConstraint num)
  (maxFontSize : num) : TextLayout num :=
  let padTop := scaledOrZero (top padding) in
  let padBot := scaledOrZero (bottom padding) in
  let padLeft := scaledOrZero (left padding) in
  let padRight := scaledOrZero (right padding) in
  let maxFont := maxFontSize * PXR in
  (* a scratch canvas that the estimator no longer measures on *)
  let ctx := getGfxContext {| height := height bounds * lit 2;
                              width := width bounds * lit 2 |} in
  let fontSize := fontSizeThreshold in
  let textWidth := widthOfText text fontSize in
  let textHeight := emHeightForFontSize fontSize in
  let availHeight := height bounds - padTop - padBot in
  let availWidth := width bounds - padLeft - padRight in
  let xBaseline := padLeft + availWidth / lit 2 in
  let textConstraint :=
    textLayoutFunc {| height := availHeight; width := availWidth |}
                   {| height := textHeight; width := textWidth |} in
  let fontSize := Math_min maxFont (fontSizeThreshold * scale textConstraint) in
  let textHeight := emHeightForFontSize fontSize in
  let yBaseline :=
    Math_round (padTop + (availHeight - textHeight) / lit 2 + textHeight) in
  {| xBaseline := xBaseline; yBaseline := yBaseline; fontPx := fontSize |}.

Definition defaultDefForLayout : ShieldTextDef num :=
  {| Def.padding := Some {| top := Some (lit 0); bottom := Some (lit 0);
                        left := Some (lit 0); right := Some (lit 0) |};
     Def.textLayoutConstraint := None;
     Def.maxFontSize := None |}.

(** [{}] *)
Definition emptyPadding : Padding num :=
  {| top := None; bottom := None; left := None; right := None |}.

Definition layoutShieldTextFromDef (text : string)
  (def : option (ShieldTextDef num)) (bounds : Bounds num) : TextLayout num :=
  let def := match def with None => defaultDefForLayout | Some d => d end in
  let padding :=
    match Def.padding def with Some p => p | None => emptyPadding end in
  let textLayoutFunc := rectTextConstraint in
  let maxFontSize := lit 14 in
  let textLayoutFunc :=
    match Def.textLayoutConstraint def with
    | Some f => f
    | None => textLayoutFunc
    end in
  let maxFontSize :=
    match Def.maxFontSize def with
    | Some m => Math_min maxFontSize m
    | None => maxFontSize
    end in
  layoutShieldText text padding bounds textLayoutFunc maxFontSize.

(** *** Compositing renderer *)

Definition drawShieldText (ctx : Context2D num) (text : string)
  (textLayout : TextLayout num) : Context2D num :=
  let ctx := set_textAlign "center" ctx in
  let ctx := set_textBaseline "alphabetic" ctx in
  let ctx := set_font (shieldFont (fontPx textLayout)) ctx in
  fillText text (xBaseline textLayout) (yBaseline textLayout) ctx.

Definition drawShieldHaloText (ctx : Context2D num) (text : string)
  (textLayout : TextLayout num) : Context2D num :=
  let ctx := set_textAlign "center" ctx in
  let ctx := set_textBaseline "alphabetic" ctx in
  let ctx := set_font (shieldFont (fontPx textLayout)) ctx in
  let ctx := set_shadowColor (Some (strokeStyle (state ctx))) ctx in
  let ctx := set_shadowBlur (Some (lit 0)) ctx in
  let ctx := set_lineWidth (lit 2 * PXR) ctx in
  let ctx :=
    strokeText text (xBaseline textLayout) (yBaseline textLayout) ctx in
  let ctx := set_shadowColor None ctx in
  set_shadowBlur None ctx.

Definition drawBannerText (ctx : Context2D num) (text : string)
  (bannerIndex : num) : Context2D num :=
  let textLayout :=
    layoutShieldTextFromDef text None
      {| width := width (canvas ctx);
         height := bannerSizeH - bannerPadding |} in
  let ctx := set_fillStyle (Some "black"%string) ctx in
  let ctx := set_font (shieldFont (fontPx textLayout)) ctx in
  let ctx := set_textBaseline "alphabetic" ctx in
  let ctx := set_textAlign "center" ctx in
  fillText text (xBaseline textLayout)
    (yBaseline textLayout + bannerIndex * bannerSizeH
     - bannerPadding + topPadding)
    ctx.

Definition drawBannerHaloText (ctx : Context2D num) (text : string)
  (bannerIndex : num) : Context2D num :=
  let textLayout :=
    layoutShieldTextFromDef text None
      {| width := width (canvas ctx);
         height := bannerSizeH - bannerPadding |} in
  let ctx := set_shadowColor (Some backgroundFill) ctx in
  let ctx := set_strokeStyle (Some (shadowColor (state ctx))) ctx in
  let ctx := set_font (shieldFont (fontPx textLayout)) ctx in
  let ctx := set_textBaseline "alphabetic" ctx in
  let ctx := set_textAlign "center" ctx in
  let ctx := set_shadowBlur (Some (lit 0)) ctx in
  let ctx := set_lineWidth (lit 2 * PXR) ctx in
  let ctx :=
    strokeText text (xBaseline textLayout)
      (yBaseline textLayout + bannerIndex * bannerSizeH
       - bannerPadding + topPadding)
      ctx in
  let ctx := set_shadowColor None ctx in
  set_shadowBlur None ctx.

End ShieldText.

(** ** The shield test page

    The page that renders one table row of shields per network.  The DOM
    is kept to what the code builds: the rows of the table, each a list
    of cells with a column span, and the value of the progress bar. *)

Module ShieldTest.

(** [{network, refs}]: what [iterShields] yields for one row. *)
Module Item.

Record t : Type := { network : string; refs : list string }.

End Item.

(** What a table cell holds: a text, a shield image, the rate of the row
    (read off the clock, so left open here), or nothing. *)
Inductive Content : Type :=
| Text (s : string)
| Img (shield_id : string)
| Rate
| Nothing.

(** A cell with its column span; [insertCell()] gives span 1. *)
Record Cell : Type := { content : Content; colSpan : Z }.

Definition insertCell (c : Content) (tr : list Cell) : list Cell :=
  (tr ++ [{| content := c; colSpan := 1 |}])%list.

Local Open Scope string_scope.

(** [`shield\n${network}=${ref}`] *)
Definition shield_id (network ref : string) : string :=
  "shield" ++ String "010" "" ++ network ++ "=" ++ ref.

(** The image element for a shield: its source is the canvas generated for
    the id. *)
Definition getShieldImage (network ref : string) : Content :=
  Img (shield_id network ref).

(** The generator, as the list of what it yields.  [networks] and [refs]
    are the module's two [let] variables. *)
Definition iterShields (networks refs : list string) : list Item.t :=
  map (fun network => {| Item.network := network; Item.refs := refs |})
      networks
  ++ [ {| Item.network := "US:PA:Allegheny:Belt";
          Item.refs := ["Red Belt"; "Orange Belt"; "Yellow Belt";
                        "Green Belt"; "Blue Belt"; "Purple Belt"] |};
       {| Item.network := "US:MO:Taney:Branson";
          Item.refs := ["Red Route"; "Yellow Route"; "Blue Route"] |};
       {| Item.network := "CA:ON:primary"; Item.refs := ["QEW"] |};
       {| Item.network := "GLCT";
          Item.refs := ["LECT"; "LHCT"; "LMCT"; "LSCT"] |};
       {| Item.network := "GLCT:Loop"; Item.refs := ["LMCT"] |} ]%list.

Local Open Scope Z_scope.

(** [Math.max(...lengths)] on lengths.  On no length at all the source
    has [-Infinity], which is never read: no row is rendered then. *)
Definition columnsOf (allShields : list Item.t) : Z :=
  fold_right Z.max 0
    (map (fun d => Z.of_nat (List.length (Item.refs d))) allShields).

(** [progress.max]: the length of [allShields.flatMap((d) => d.refs)]. *)
Definition progressMax (allShields : list Item.t) : Z :=
  Z.of_nat (List.length (flat_map Item.refs allShields)).

(** One turn of the outer loop: the row of an entry, and the progress
    value after it. *)
Definition renderRow (columns : Z) (d : Item.t) (progress : Z)
  : list Cell * Z :=
  let tr := insertCell (Text (Item.network d)) [] in
  let '(tr, progress) :=
    fold_left
      (fun '(tr, progress) ref =>
         (insertCell (getShieldImage (Item.network d) ref) tr, progress + 1))
      (Item.refs d) (tr, progress) in
  let tr :=
    if Z.of_nat (List.length tr) <? 1 + columns then
      let gap := columns - Z.of_nat (List.length tr) + 1 in
      (tr ++ [{| content := Nothing; colSpan := gap |}])%list
    else tr in
  let tr := insertCell Rate tr in
  (tr, progress).

(** The body of [renderAllShields] on the entries [allShields]: the rows
    appended to the table, and the progress value at the end. *)
Definition renderShields (allShields : list Item.t) (progress : Z)
  : list (list Cell) * Z :=
  let columns := columnsOf allShields in
  fold_left
    (fun '(table, progress) d =>
       let '(tr, progress) := renderRow columns d progress in
       ((table ++ [tr])%list, progress))
    allShields ([], progress).

Definition renderAllShields (networks refs : list string) (progress : Z)
  : list (list Cell) * Z :=
  renderShields (iterShields networks refs) progress.

(** The columns a row takes up. *)
Definition rowSpan (tr : list Cell) : Z :=
  fold_right (fun c n => colSpan c + n) 0 tr.

(** No ["="] in a text. *)
Definition noEquals (s : string) : bool :=
  forallb (fun c => negb (Ascii.eqb c "="%char)) (list_ascii_of_string s).

End ShieldTest.

(** ** Vocabulary of the statements *)

(** The characters of the digit bucket of [widthOfChar]. *)
Definition isDigit (char : ascii) : bool :=
  match char with
  | "0" | "1" | "2" | "3" | "4" | "5" | "6" | "7" | "8" | "9" => true
  | _ => false
  end%char.

Definition allDigits (text : string) : bool :=
  forallb isDigit (list_ascii_of_string text).

Section Vocabulary.

Context {num : Type} {N : JSNumber num} {Gfx : GfxModule num}.

Local Open Scope js_scope.

(** The interior left by the padding, and the estimated extent of the
    text at the reference size: the two arguments that
    [layoutShieldText] hands to the constraint function. *)
Definition availableBounds (padding : Padding num) (bounds : Bounds num)
  : Bounds num :=
  {| height := height bounds - scaledOrZero (top padding)
               - scaledOrZero (bottom padding);
     width := width bounds - scaledOrZero (left padding)
              - scaledOrZero (right padding) |}.

Definition estimatedTextBounds (text : string) : Bounds num :=
  {| height := emHeightForFontSize fontSizeThreshold;
     width := widthOfText text fontSizeThreshold |}.

(** The padded bounds, written out from what a padding is: four sides in
    logical units, a missing one being 0.  [interior] takes each side,
    scaled by the pixel ratio, off the bounds. *)
Definition sideOrZero (p : option num) : num :=
  match p with Some v => v | None => lit 0 end.

Definition interior (padding : Padding num) (bounds : Bounds num)
  : Bounds num :=
  {| height := height bounds - sideOrZero (top padding) * PXR
               - sideOrZero (bottom padding) * PXR;
     width := width bounds - sideOrZero (left padding) * PXR
              - sideOrZero (right padding) * PXR |}.

(** The same where numbers round and NaN exists: a side is its product
    with the pixel ratio, and counts as 0 when it is missing or when the
    product is 0 or NaN. *)
Definition scaledSide (p : option num) : num :=
  match p with
  | Some v => if truthy (v * PXR) then v * PXR else lit 0
  | None => lit 0
  end.

Definition paddedBounds (padding : Padding num) (bounds : Bounds num)
  : Bounds num :=
  {| height := height bounds - scaledSide (top padding)
               - scaledSide (bottom padding);
     width := width bounds - scaledSide (left padding)
              - scaledSide (right padding) |}.

(** The baseline Y of the latest draw recorded on a context. *)
Definition drawnBaseline (ctx : Context2D num) : option num :=
  match rev (calls ctx) with
  | call :: _ => Some (atY call)
  | [] => None
  end.

End Vocabulary.

(** The sign of a double as the IEEE specification has it: [signIs sign s]
    holds when [s] is NaN or carries the sign bit [sign]. *)
Definition signIs (sign : bool) (s : SpecFloat.spec_float) : bool :=
  match s with
  | SpecFloat.S754_nan => true
  | SpecFloat.S754_zero sg | SpecFloat.S754_infinity sg
  | SpecFloat.S754_finite sg _ _ => Bool.eqb sg sign
  end.

(** A padding side that is set, or else 0; and a padding with every
    missing side set to 0. *)
Definition orZero {num} `{JSNumber num} (p : option num) : option num :=
  match p with Some v => Some v | None => Some (lit 0) end.

Definition zeroFilled {num} `{JSNumber num} (padding : Padding num)
  : Padding num :=
  {| top := orZero (top padding); bottom := orZero (bottom padding);
     left := orZero (left padding); right := orZero (right padding) |}.

(** ** A sample environment

    One setting of the imported constants, on which the statements below
    are exercised: a pixel ratio of 1, a reference font size of 12, and
    banner plates of height 8 with paddings of 1. *)

Module Sample.

Section Environment.

Variable num : Type.
Context {N : JSNumber num}.

Definition blank : DrawState num :=
  {| textAlign := "start"; textBaseline := "alphabetic";
     font := "10px sans-serif";
     fillStyle := "#000000";
     strokeStyle := "#000000";
     shadowColor := "rgba(0, 0, 0, 0)";
     shadowBlur := lit 0;
     lineWidth := lit 1 |}.

Definition gfx : GfxModule num :=
  {| getPixelRatio := lit 1;
     fontSizeThreshold := lit 12;
     shieldFont := fun _ => "shield"%string;
     getGfxContext := fun size =>
       {| canvas := size; state := blank; calls := [] |} |}.

Definition shieldDef : ShieldDefModule num :=
  {| bannerSizeH := lit 8; bannerPadding := lit 1; topPadding := lit 1 |}.

End Environment.

Arguments blank num {N}.
Arguments gfx num {N}.
Arguments shieldDef num {N}.

Definition color : ColorModule := {| backgroundFill := "hsl(30, 44%, 96%)" |}.

End Sample.

(** ** Properties that hold in every number model

    They follow the shape of the code alone: which operations are applied
    to which operands, in which order. *)

Section Structure.

Context {num : Type} {N : JSNumber num}.
Context {Gfx : GfxModule num} {ShieldDef : ShieldDefModule num}.
Context {Color : ColorModule}.

Local Open Scope js_scope.

Lemma widthOfChar_digit (char : ascii) :
  isDigit char = true -> widthOfChar char = lit 1 / lit 2.75.
Proof.
  destruct char as [[] [] [] [] [] [] [] []]; simpl;
    intros E; first [ reflexivity | discriminate E ].
Qed.

Lemma length_list_ascii (text : string) :
  List.length (list_ascii_of_string text) = String.length text.
Proof.
  induction text as [|c text IH]; simpl; [reflexivity | now rewrite IH].
Qed.

(** Summing the widths of two runs of digits of one length, from one
    start value, gives one result: the same additions of the same
    constant, in the same order. *)
Lemma sum_digit_widths (l1 : list ascii) :
  forall (l2 : list ascii) (len : num),
    forallb isDigit l1 = true -> forallb isDigit l2 = true ->
    List.length l1 = List.length l2 ->
    fold_left (fun len char => len + widthOfChar char) l1 len =
    fold_left (fun len char => len + widthOfChar char) l2 len.
Proof.
  induction l1 as [|c1 l1 IH]; intros [|c2 l2] len D1 D2 L;
    try discriminate L; [reflexivity|].
  simpl in D1, D2. apply andb_prop in D1, D2.
  destruct D1 as [Dc1 D1], D2 as [Dc2 D2].
  simpl. rewrite (widthOfChar_digit _ Dc1), (widthOfChar_digit _ Dc2).
  apply IH; [assumption | assumption | now injection L].
Qed.

(** Digit-width equivalence: the estimate of an all-digit text depends on
    its length only. *)
Lemma widthOfText_digits (text1 text2 : string) (fontSize : num) :
  allDigits text1 = true -> allDigits text2 = true ->
  String.length text1 = String.length text2 ->
  widthOfText text1 fontSize = widthOfText text2 fontSize.
Proof.
  intros D1 D2 L. unfold widthOfText. rewrite L. f_equal.
  apply sum_digit_widths; try assumption.
  now rewrite !length_list_ascii.
Qed.

Lemma layoutShieldText_fontPx (text : string) (padding : Padding num)
  (bounds : Bounds num)
  (textLayoutFunc : Bounds num -> Bounds num -> TextConstraint num)
  (maxFontSize : num) :
  fontPx (layoutShieldText text padding bounds textLayoutFunc maxFontSize) =
  Math_min (maxFontSize * PXR)
    (fontSizeThreshold *
     scale (textLayoutFunc (availableBounds padding bounds)
                           (estimatedTextBounds text))).
Proof. reflexivity. Qed.

(** *** Compositing renderer *)

Lemma drawnBaseline_last (ctx : Context2D num) (earlier : list (DrawCall num))
  (call : DrawCall num) :
  calls ctx = earlier ++ [call] -> drawnBaseline ctx = Some (atY call).
Proof.
  unfold drawnBaseline. intros ->. rewrite rev_app_distr. reflexivity.
Qed.

Lemma drawnBaseline_banner (ctx : Context2D num) (text : string)
  (bannerIndex : num) :
  let textLayout :=
    layoutShieldTextFromDef text None
      {| width := width (canvas ctx);
         height := bannerSizeH - bannerPadding |} in
  let drawnY :=
    yBaseline textLayout + bannerIndex * bannerSizeH
    - bannerPadding + topPadding in
  drawnBaseline (drawBannerText ctx text bannerIndex) = Some drawnY
  /\ drawnBaseline (drawBannerHaloText ctx text bannerIndex) = Some drawnY.
Proof.
  intros textLayout drawnY.
  split; erewrite drawnBaseline_last by reflexivity; reflexivity.
Qed.

(** What [drawShieldHaloText] does to a context: one outline draw of the
    text at the layout's position, under the layout's font size, with the
    shadow color equal to the stroke color the context came with and a
    shadow blur of zero.  When it returns the shadow blur is 0, and the
    shadow color is still the stroke color: the [null] assigned to it is
    no color, so the assignment is ignored.  The canvas, the stroke and
    fill colors and the earlier draws are left as they were. *)
Lemma drawShieldHaloText_effect (ctx : Context2D num) (text : string)
  (textLayout : TextLayout num) :
  let ctx' := drawShieldHaloText ctx text textLayout in
  shadowColor (state ctx') = strokeStyle (state ctx)
  /\ shadowBlur (state ctx') = lit 0
  /\ (exists during : DrawState num,
        calls ctx' =
          calls ctx ++
          [{| op := StrokeText; drawnText := text;
              atX := xBaseline textLayout; atY := yBaseline textLayout;
              under := during |}]
        /\ shadowColor during = strokeStyle (state ctx)
        /\ strokeStyle during = strokeStyle (state ctx)
        /\ shadowBlur during = lit 0
        /\ font during = shieldFont (fontPx textLayout)
        /\ lineWidth during = lit 2 * PXR
        /\ textAlign during = "center"%string
        /\ textBaseline during = "alphabetic"%string)
  /\ canvas ctx' = canvas ctx
  /\ strokeStyle (state ctx') = strokeStyle (state ctx)
  /\ fillStyle (state ctx') = fillStyle (state ctx).
Proof.
  intros ctx'. subst ctx'.
  split; [reflexivity|]. split; [reflexivity|].
  split; [|repeat split].
  eexists. split; [reflexivity|]. repeat split.
Qed.

End Structure.

(** ** Properties over the real numbers *)

(** Unfolds the number interface at its real instance. *)
Ltac real_ops :=
  cbv [lit add sub mul div Math_sqrt Math_min Math_round RealNumber
       ofNat Q2R Qnum Qden inject_Z] in *.

(** Runs the estimator on a literal string, down to real arithmetic. *)
Ltac estimate :=
  cbv [widthOfText widthOfChar emHeightForFontSize list_ascii_of_string
       fold_left String.length ofNat inject_Z Z.of_nat Pos.of_succ_nat
       Pos.succ] in *;
  real_ops.

Section RealModel.

Context {Gfx : GfxModule R} {ShieldDef : ShieldDefModule R}.
Context {Color : ColorModule}.

Local Open Scope R_scope.

Lemma lit_0_real : lit 0 = 0.
Proof. real_ops. lra. Qed.

Lemma jsOr_zero (x : R) : jsOr x (lit 0) = x.
Proof.
  unfold jsOr; cbn [truthy RealNumber].
  destruct (Req_dec_T x 0) as [E|E]; [|reflexivity].
  subst x. real_ops. lra.
Qed.

(** Over the reals a scaled padding is the plain product, and a missing
    one is zero. *)
Lemma scaledOrZero_real (p : option R) :
  scaledOrZero p = match p with Some v => v * PXR | None => 0 end.
Proof.
  destruct p as [v|]; unfold scaledOrZero.
  - apply jsOr_zero.
  - real_ops; lra.
Qed.

Lemma scaledOrZero_side (p : option R) :
  scaledOrZero p = sideOrZero p * PXR.
Proof.
  rewrite scaledOrZero_real. destruct p as [v|]; cbn [sideOrZero];
    rewrite ?lit_0_real; ring.
Qed.

Lemma availableBounds_interior (padding : Padding R) (bounds : Bounds R) :
  availableBounds padding bounds = interior padding bounds.
Proof.
  unfold availableBounds, interior. rewrite !scaledOrZero_real.
  destruct padding as [[t|] [b|] [l|] [r|]];
    cbn [top bottom left right sideOrZero];
    rewrite ?lit_0_real; cbn [sub mul RealNumber]; f_equal; ring.
Qed.

Lemma widthOfText_111 (fontSize : R) :
  widthOfText "111" fontSize = fontSize * (2 / 12 + 3 * (100 / 275)).
Proof. estimate. field. Qed.

Lemma widthOfText_WWW (fontSize : R) :
  widthOfText "WWW" fontSize = fontSize * (2 / 12 + 3 * (10 / 15)).
Proof. estimate. field. Qed.

Lemma widthOfText_empty (fontSize : R) :
  widthOfText "" fontSize = - fontSize / 12.
Proof. estimate. field. Qed.

(** *** Layout engine: the font size *)


(** C1, as the code has it.  Over the reals, with a reference size of 0 or
    more: when the text fits unscaled (the scale that the constraint
    function returns on the padded bounds and the estimated text bounds is
    at least 1) the font size is the smaller of the scaled maximum and the
    reference size times the scale.  It is at least
    [min (maxFontSize * PXR) referenceFontSize], and equal to it when the
    scale is exactly 1 or the scaled maximum does not exceed the
    reference size.  When the scale is above 1, the reference size above 0
    and the scaled maximum above the reference size, the font size is
    above the reference size. *)
Theorem layoutShieldText_fits_unscaled (text : string) (padding : Padding R)
  (bounds : Bounds R)
  (textLayoutFunc : Bounds R -> Bounds R -> TextConstraint R)
  (maxFontSize : R) :
  let s :=
    scale (textLayoutFunc
             (interior padding bounds)
             {| height := emHeightForFontSize fontSizeThreshold;
                width := widthOfText text fontSizeThreshold |}) in
  let size :=
    fontPx (layoutShieldText text padding bounds textLayoutFunc maxFontSize) in
  0 <= fontSizeThreshold -> 1 <= s ->
  size = Rmin (maxFontSize * PXR) (fontSizeThreshold * s)
  /\ Rmin (maxFontSize * PXR) fontSizeThreshold <= size
  /\ (s = 1 -> size = Rmin (maxFontSize * PXR) fontSizeThreshold)
  /\ (maxFontSize * PXR <= fontSizeThreshold ->
      size = Rmin (maxFontSize * PXR) fontSizeThreshold)
  /\ (1 < s -> 0 < fontSizeThreshold ->
      fontSizeThreshold < maxFontSize * PXR ->
      fontSizeThreshold < size
      /\ Rmin (maxFontSize * PXR) fontSizeThreshold < size).
Proof.
  intros s size HT Hs. subst size.
  rewrite layoutShieldText_fontPx, availableBounds_interior.
  change (estimatedTextBounds text)
    with {| height := emHeightForFontSize fontSizeThreshold;
            width := widthOfText text fontSizeThreshold |}.
  fold s. cbn [Math_min mul RealNumber].
  assert (HTs : fontSizeThreshold <= fontSizeThreshold * s) by nra.
  split; [reflexivity|]. split; [apply Rle_min_compat_l, HTs|].
  split; [intros ->; now rewrite Rmult_1_r|]. split.
  - intros Hmax. rewrite !Rmin_left; [reflexivity | lra | lra].
  - intros Hs1 HT0 HM.
    assert (fontSizeThreshold < fontSizeThreshold * s) by nra.
    rewrite (Rmin_right (maxFontSize * PXR) fontSizeThreshold) by lra.
    assert (fontSizeThreshold
            < Rmin (maxFontSize * PXR) (fontSizeThreshold * s))
      by (apply Rmin_glb_lt; assumption).
    split; assumption.
Qed.

(** *** Text metrics estimator *)

(** C6, as the code has it.  In every number model, binary64 included,
    "111" and "222" are estimated alike at every font size, as are any
    two all-digit texts of one length.  Over the reals, at every font
    size other than 0 both differ from "WWW". *)
Theorem widthOfText_digit_equivalence :
  (forall (num : Type) (N : JSNumber num) (fontSize : num),
     widthOfText "111" fontSize = widthOfText "222" fontSize
     /\ (forall text1 text2 : string,
           allDigits text1 = true -> allDigits text2 = true ->
           String.length text1 = String.length text2 ->
           widthOfText text1 fontSize = widthOfText text2 fontSize))
  /\ (forall fontSize : R, fontSize <> 0 ->
        widthOfText "111" fontSize <> widthOfText "WWW" fontSize
        /\ widthOfText "222" fontSize <> widthOfText "WWW" fontSize).
Proof.
  split.
  - intros num N fontSize. split.
    + apply widthOfText_digits; reflexivity.
    + intros text1 text2. apply widthOfText_digits.
  - intros fontSize Hf.
    assert (E : widthOfText "111" fontSize = widthOfText "222" fontSize)
      by (apply widthOfText_digits; reflexivity).
    rewrite <- E. split; intros W;
      rewrite widthOfText_111, widthOfText_WWW in W;
      apply Rmult_eq_reg_l in W; try assumption; lra.
Qed.

(** Over the reals, when the reference size is positive and the padding,
    scaled by the pixel ratio, leaves a positive width of the bounds, the
    layout of the empty text under the rectangle constraint has a negative
    font size. *)
Lemma empty_text_layout_real (padding : Padding R) (bounds : Bounds R)
  (maxFontSize : R) :
  0 < fontSizeThreshold ->
  0 < width bounds - sideOrZero (left padding) * PXR
      - sideOrZero (right padding) * PXR ->
  fontPx (layoutShieldText "" padding bounds rectTextConstraint
            maxFontSize) < 0.
Proof.
  intros HT HW.
  rewrite layoutShieldText_fontPx, availableBounds_interior.
  change (0 < width (interior padding bounds)) in HW.
  set (avail := interior padding bounds) in *.
  unfold rectTextConstraint, estimatedTextBounds.
  cbn [scale width height]. rewrite widthOfText_empty.
  cbn [Math_min mul div RealNumber].
  apply Rle_lt_trans with
    (fontSizeThreshold *
     Rmin (width avail / (- fontSizeThreshold / 12))
          (height avail / emHeightForFontSize fontSizeThreshold));
    [apply Rmin_r|].
  assert (HS : width avail / (- fontSizeThreshold / 12) < 0).
  { unfold Rdiv at 1. apply Rmult_pos_neg; [assumption|].
    apply Rinv_lt_0_compat. lra. }
  pose proof (Rmin_l (width avail / (- fontSizeThreshold / 12))
                (height avail / emHeightForFontSize fontSizeThreshold)).
  nra.
Qed.

(** *** Shape constraint solver *)

Lemma lit_2 : lit 2 = 2.
Proof. real_ops. lra. Qed.

Lemma sqrt_2_bounds : 1.4 < sqrt 2 < 1.5.
Proof.
  pose proof (sqrt_pos 2) as P.
  assert (S : sqrt 2 * sqrt 2 = 2) by (apply sqrt_sqrt; lra).
  split; nra.
Qed.

Lemma ellipse_radicand_pos (a b x0 y0 : R) :
  0 < a -> 0 < b -> 0 < x0 -> 0 < y0 ->
  0 < a * a * y0 * y0 + b * b * x0 * x0.
Proof.
  intros Ha Hb Hx Hy.
  assert (0 < a * a * y0 * y0) by (repeat apply Rmult_lt_0_compat; assumption).
  assert (0 < b * b * x0 * x0) by (repeat apply Rmult_lt_0_compat; assumption).
  lra.
Qed.

Lemma ellipseScale_pos (spaceBounds textBounds : Bounds R) :
  0 < width spaceBounds -> 0 < height spaceBounds ->
  0 < width textBounds -> 0 < height textBounds ->
  0 < ellipseScale spaceBounds textBounds.
Proof.
  intros Ha Hb Hx Hy. unfold ellipseScale. real_ops.
  apply Rdiv_lt_0_compat.
  - apply Rmult_lt_0_compat; assumption.
  - apply sqrt_lt_R0, ellipse_radicand_pos; assumption.
Qed.

(** The scale of the rounded rectangle, over the reals. *)
Lemma roundedRect_scale (spaceBounds textBounds : Bounds R) (radius : R) :
  scale (roundedRectTextConstraint spaceBounds textBounds radius) =
  Rmin ((width spaceBounds - radius * (2 - sqrt 2)) / width textBounds)
       ((height spaceBounds - radius * (2 - sqrt 2)) / height textBounds).
Proof.
  unfold roundedRectTextConstraint, rectTextConstraint.
  cbn [scale width height]. rewrite lit_2. reflexivity.
Qed.

(** C3.  The ellipse constraint returns [(a*b) / sqrt (a^2*y0^2 + b^2*x0^2)],
    with [a], [b] the extents of the space and [x0], [y0] those of the
    text as the code reads them; halving all four, to half-axes and
    half-extents, gives the same value.  For a space of 10 by 5 and a
    text of 4 by 2 the result is [50 / sqrt (100*4 + 25*16)], that is
    1.7677669529663687 to within 1e-9. *)
Theorem ellipseTextConstraint_formula (spaceBounds textBounds : Bounds R) :
  let a := width spaceBounds in
  let b := height spaceBounds in
  let x0 := width textBounds in
  let y0 := height textBounds in
  let example :=
    scale (ellipseTextConstraint {| width := 10; height := 5 |}
                                 {| width := 4; height := 2 |}) in
  scale (ellipseTextConstraint spaceBounds textBounds) =
    (a * b) / sqrt (a ^ 2 * y0 ^ 2 + b ^ 2 * x0 ^ 2)
  /\ (0 < a -> 0 < b -> 0 < x0 -> 0 < y0 ->
      scale (ellipseTextConstraint spaceBounds textBounds) =
        (a / 2 * (b / 2)) /
        sqrt ((a / 2) ^ 2 * (y0 / 2) ^ 2 + (b / 2) ^ 2 * (x0 / 2) ^ 2))
  /\ example = 50 / sqrt (100 * 4 + 25 * 16)
  /\ Rabs (example - 50 / sqrt (100 * 4 + 25 * 16)) < 1e-9
  /\ Rabs (example - 1.7677669529663687) < 1e-9.
Proof.
  intros a b x0 y0 example.
  assert (Ex : example = 50 / sqrt (100 * 4 + 25 * 16)).
  { subst example. cbv [ellipseTextConstraint ellipseScale scale width height].
    real_ops. f_equal; [lra | f_equal; lra]. }
  split; [|split; [|split; [|split]]].
  - cbv [ellipseTextConstraint ellipseScale scale]. fold a b x0 y0. real_ops.
    do 2 f_equal. ring.
  - intros Ha Hb Hx Hy.
    cbv [ellipseTextConstraint ellipseScale scale]. fold a b x0 y0. real_ops.
    pose proof (ellipse_radicand_pos Ha Hb Hx Hy) as HX.
    replace ((a / 2) ^ 2 * (y0 / 2) ^ 2 + (b / 2) ^ 2 * (x0 / 2) ^ 2)
      with ((a * a * y0 * y0 + b * b * x0 * x0) * (/ 4 * / 4)) by field.
    rewrite sqrt_mult by lra. rewrite sqrt_square by lra.
    apply sqrt_lt_R0 in HX. field. lra.
  - exact Ex.
  - rewrite Ex. unfold Rminus. rewrite Rplus_opp_r, Rabs_R0. lra.
  - rewrite Ex. replace (100 * 4 + 25 * 16) with 800 by lra.
    assert (Hr : 0 < sqrt 800) by (apply sqrt_lt_R0; lra).
    assert (Hrr : sqrt 800 * sqrt 800 = 800) by (apply sqrt_sqrt; lra).
    set (r := sqrt 800) in *.
    assert (L : 28.28427124 < r) by nra.
    assert (U : r < 28.28427125) by nra.
    assert (Hcr : 50 / r * r = 50) by (field; lra).
    apply Rabs_def1; nra.
Qed.

(** Over the reals, on a space and a text of positive width and height
    the rectangle, ellipse and south-half-ellipse constraints return a
    positive scale; the rounded-rectangle constraint does so exactly when
    [radius * (2 - sqrt 2)] is below both extents of the space, which
    holds for every radius from 0 to half the shorter side. *)
Lemma constraint_scale_positive_real (spaceBounds textBounds : Bounds R) :
  0 < width spaceBounds -> 0 < height spaceBounds ->
  0 < width textBounds -> 0 < height textBounds ->
  0 < scale (rectTextConstraint spaceBounds textBounds)
  /\ 0 < scale (ellipseTextConstraint spaceBounds textBounds)
  /\ 0 < scale (southHalfellipseTextConstraint spaceBounds textBounds)
  /\ (forall radius : R,
        0 < scale (roundedRectTextConstraint spaceBounds textBounds radius)
        <-> radius * (2 - sqrt 2)
            < Rmin (width spaceBounds) (height spaceBounds))
  /\ (forall radius : R,
        0 <= radius <= Rmin (width spaceBounds) (height spaceBounds) / 2 ->
        0 < scale (roundedRectTextConstraint spaceBounds textBounds radius)).
Proof.
  intros Ha Hb Hx Hy.
  assert (Rounded : forall radius : R,
    0 < scale (roundedRectTextConstraint spaceBounds textBounds radius)
    <-> radius * (2 - sqrt 2) < Rmin (width spaceBounds) (height spaceBounds)).
  { intros radius. rewrite roundedRect_scale.
    set (k := radius * (2 - sqrt 2)). split.
    - intros H. apply Rmin_Rgt_l in H. destruct H as [HW HH].
      apply Rmin_glb_lt.
      + apply Rgt_lt in HW.
        apply (Rmult_lt_compat_r (width textBounds)) in HW; [|assumption].
        unfold Rdiv in HW. rewrite Rmult_assoc, Rinv_l in HW; lra.
      + apply Rgt_lt in HH.
        apply (Rmult_lt_compat_r (height textBounds)) in HH; [|assumption].
        unfold Rdiv in HH. rewrite Rmult_assoc, Rinv_l in HH; lra.
    - intros H.
      pose proof (Rmin_l (width spaceBounds) (height spaceBounds)).
      pose proof (Rmin_r (width spaceBounds) (height spaceBounds)).
      apply Rmin_pos; apply Rdiv_lt_0_compat; lra. }
  split; [|split; [|split; [|split]]].
  - unfold rectTextConstraint. cbn [scale]. real_ops.
    apply Rmin_pos; apply Rdiv_lt_0_compat; assumption.
  - apply ellipseScale_pos; assumption.
  - unfold southHalfellipseTextConstraint. cbn [scale].
    apply ellipseScale_pos; cbn [width height]; try assumption.
    rewrite lit_2. cbn [div RealNumber]. lra.
  - exact Rounded.
  - intros radius [R0 R1]. apply Rounded.
    pose proof sqrt_2_bounds.
    assert (0 < Rmin (width spaceBounds) (height spaceBounds))
      by (apply Rmin_pos; assumption).
    nra.
Qed.

(** C5.  With radius 0 the rounded-rectangle constraint returns the very
    scale of the rectangle constraint on the same bounds. *)
Theorem roundedRect_radius_zero (spaceBounds textBounds : Bounds R) :
  roundedRectTextConstraint spaceBounds textBounds 0 =
  rectTextConstraint spaceBounds textBounds
  /\ scale (roundedRectTextConstraint spaceBounds textBounds 0) =
     scale (rectTextConstraint spaceBounds textBounds).
Proof.
  assert (E : roundedRectTextConstraint spaceBounds textBounds 0 =
              rectTextConstraint spaceBounds textBounds).
  { unfold roundedRectTextConstraint. f_equal.
    destruct spaceBounds as [w h]. cbn [width height]. real_ops.
    f_equal; ring. }
  split; [exact E | now rewrite E].
Qed.

(** *** Layout from a shield definition *)

Lemma lit_14 : lit 14 = 14.
Proof. real_ops. lra. Qed.

Lemma lit_0 : lit 0 = 0.
Proof. real_ops. lra. Qed.

(** C8.  Without a definition [layoutShieldTextFromDef] lays the text
    out with zero padding on all four sides (so the whole bounds are
    available), the rectangle constraint and a maximum font size of 14.
    A definition that carries a [maxFontSize] m gives the maximum
    [min 14 m], which is never above 14; one that carries none keeps
    14.  Its padding and constraint function are used when present, the
    empty padding and the rectangle constraint otherwise. *)
Theorem layoutShieldTextFromDef_defaults (text : string) (bounds : Bounds R) :
  let zero := {| top := Some 0; bottom := Some 0;
                 left := Some 0; right := Some 0 |} in
  let orEmpty (p : option (Padding R)) :=
    match p with Some p => p | None => emptyPadding end in
  let orRect (c : option (Bounds R -> Bounds R -> TextConstraint R)) :=
    match c with Some f => f | None => rectTextConstraint end in
  layoutShieldTextFromDef text None bounds =
    layoutShieldText text zero bounds rectTextConstraint 14
  /\ availableBounds zero bounds = bounds
  /\ (forall p c (m : R),
        layoutShieldTextFromDef text
          (Some {| Def.padding := p; Def.textLayoutConstraint := c;
                   Def.maxFontSize := Some m |}) bounds =
          layoutShieldText text (orEmpty p) bounds (orRect c) (Rmin 14 m)
        /\ Rmin 14 m <= 14
        /\ fontPx (layoutShieldTextFromDef text
                     (Some {| Def.padding := p; Def.textLayoutConstraint := c;
                              Def.maxFontSize := Some m |}) bounds)
           <= Rmin 14 m * PXR)
  /\ (forall p c,
        layoutShieldTextFromDef text
          (Some {| Def.padding := p; Def.textLayoutConstraint := c;
                   Def.maxFontSize := None |}) bounds =
          layoutShieldText text (orEmpty p) bounds (orRect c) 14).
Proof.
  intros zero orEmpty orRect.
  split; [|split; [|split]].
  - unfold layoutShieldTextFromDef, defaultDefForLayout.
    cbn [Def.padding Def.textLayoutConstraint Def.maxFontSize].
    rewrite lit_14, lit_0. reflexivity.
  - unfold availableBounds, zero. cbn [top bottom left right].
    rewrite !scaledOrZero_real. destruct bounds as [w h].
    cbn [width height sub mul RealNumber]. f_equal; ring.
  - intros p c m.
    assert (E : layoutShieldTextFromDef text
                  (Some {| Def.padding := p; Def.textLayoutConstraint := c;
                           Def.maxFontSize := Some m |}) bounds =
                layoutShieldText text (orEmpty p) bounds (orRect c)
                  (Rmin 14 m)).
    { unfold layoutShieldTextFromDef.
      cbn [Def.padding Def.textLayoutConstraint Def.maxFontSize].
      rewrite lit_14. reflexivity. }
    split; [exact E|]. split; [apply Rmin_l|].
    rewrite E, layoutShieldText_fontPx. apply Rmin_l.
  - intros p c. unfold layoutShieldTextFromDef.
    cbn [Def.padding Def.textLayoutConstraint Def.maxFontSize].
    rewrite lit_14. reflexivity.
Qed.

(** *** Compositing renderer: the banners *)

(** C7, as the code has it.  In every number model, binary64 included,
    [drawBannerText] and [drawBannerHaloText] each issue one draw of the
    text, at the baseline Y of the layout computed for the banner area
    (the canvas width by [bannerSizeH - bannerPadding], no definition)
    plus [bannerIndex * bannerSizeH], minus [bannerPadding], plus
    [topPadding], added in that order.  Over the reals, at index 0 the
    baseline drawn by either routine is the computed one plus
    [- bannerPadding + topPadding], and the baseline drawn at index
    [bannerIndex + 1] is the one drawn at [bannerIndex] plus one
    [bannerSizeH]; where numbers round, these two hold up to the rounding
    of the sums. *)
Theorem banner_text_baseline :
  (forall (num : Type) (N : JSNumber num) (G : GfxModule num)
          (D : ShieldDefModule num) (C : ColorModule)
          (ctx : Context2D num) (text : string) (bannerIndex : num),
     let textLayout :=
       layoutShieldTextFromDef text None
         {| width := width (canvas ctx);
            height := sub bannerSizeH bannerPadding |} in
     let drawnY :=
       add (sub (add (yBaseline textLayout) (mul bannerIndex bannerSizeH))
                bannerPadding)
           topPadding in
     (exists during : DrawState num,
        calls (drawBannerText ctx text bannerIndex) =
          calls ctx ++
          [{| op := FillText; drawnText := text;
              atX := xBaseline textLayout; atY := drawnY;
              under := during |}])
     /\ (exists during : DrawState num,
           calls (drawBannerHaloText ctx text bannerIndex) =
             calls ctx ++
             [{| op := StrokeText; drawnText := text;
                 atX := xBaseline textLayout; atY := drawnY;
                 under := during |}]))
  /\ (forall (ctx : Context2D R) (text : string) (bannerIndex : R),
        let textLayout :=
          layoutShieldTextFromDef text None
            {| width := width (canvas ctx);
               height := bannerSizeH - bannerPadding |} in
        let onePlateFurther := option_map (fun y => y + bannerSizeH) in
        drawnBaseline (drawBannerText ctx text 0) =
          Some (yBaseline textLayout + (- bannerPadding + topPadding))
        /\ drawnBaseline (drawBannerHaloText ctx text 0) =
             Some (yBaseline textLayout + (- bannerPadding + topPadding))
        /\ drawnBaseline (drawBannerText ctx text (bannerIndex + 1)) =
             onePlateFurther
               (drawnBaseline (drawBannerText ctx text bannerIndex))
        /\ drawnBaseline (drawBannerHaloText ctx text (bannerIndex + 1)) =
             onePlateFurther
               (drawnBaseline (drawBannerHaloText ctx text bannerIndex))).
Proof.
  split.
  - intros num N G D C ctx text bannerIndex textLayout drawnY.
    split; eexists; reflexivity.
  - intros ctx text bannerIndex textLayout onePlateFurther.
    subst onePlateFurther.
    pose proof (drawnBaseline_banner ctx text 0) as [T0 H0].
    pose proof (drawnBaseline_banner ctx text bannerIndex) as [Ti Hi].
    pose proof (drawnBaseline_banner ctx text (bannerIndex + 1)) as [Ts Hs].
    rewrite T0, H0, Ti, Hi, Ts, Hs. subst textLayout.
    cbn [option_map add sub mul RealNumber].
    repeat split; apply f_equal; ring.
Qed.

End RealModel.

(** ** The statements on the sample environment *)

Section OnSample.

Local Open Scope R_scope.

Local Abbreviation gfx := (Sample.gfx R).

(** Runs the layout engine on literal arguments, down to real
    arithmetic. *)
Ltac layout :=
  cbv [layoutShieldText layoutShieldTextFromDef defaultDefForLayout
       availableBounds estimatedTextBounds emptyPadding interior sideOrZero
       rectTextConstraint roundedRectTextConstraint ellipseTextConstraint
       southHalfellipseTextConstraint ellipseScale
       scale width height fontPx xBaseline yBaseline top bottom left right
       PXR getPixelRatio fontSizeThreshold Sample.gfx scaledOrZero] in *;
  rewrite ?jsOr_zero in *;
  estimate.

Ltac minimum := unfold Rmin in *; repeat destruct Rle_dec; try lra.

Lemma sample_fit :
  scale (rectTextConstraint
           (availableBounds (Gfx := gfx) emptyPadding
              {| width := 20; height := 20 |})
           (estimatedTextBounds (Gfx := gfx) "5")) = 20 / 9.
Proof. layout. minimum. Qed.

Lemma sample_reference : 0 <= fontSizeThreshold (GfxModule := gfx).
Proof. layout. lra. Qed.

(** C1, refuted as stated: the text "5" in a 20 by 20 area fits unscaled
    (scale 20/9), and is laid out at the ceiling 14, above the reference
    size 12. *)
Lemma fitted_size_exceeds_reference :
  1 <= scale (rectTextConstraint
                (availableBounds (Gfx := gfx) emptyPadding
                   {| width := 20; height := 20 |})
                (estimatedTextBounds (Gfx := gfx) "5"))
  /\ fontPx (layoutShieldText (Gfx := gfx) "5" emptyPadding
               {| width := 20; height := 20 |} rectTextConstraint 14) = 14
  /\ Rmin (14 * PXR (Gfx := gfx)) (fontSizeThreshold (GfxModule := gfx)) = 12.
Proof.
  split; [rewrite sample_fit; lra|]. split.
  - rewrite layoutShieldText_fontPx, sample_fit. layout. minimum.
  - layout. minimum.
Qed.

Lemma sample_fit_interior :
  scale (rectTextConstraint
           (interior (Gfx := gfx) emptyPadding
              {| width := 20; height := 20 |})
           {| height :=
                emHeightForFontSize (fontSizeThreshold (GfxModule := gfx));
              width :=
                widthOfText "5" (fontSizeThreshold (GfxModule := gfx)) |})
  = 20 / 9.
Proof. rewrite <- availableBounds_interior. exact sample_fit. Qed.

Lemma layoutShieldText_fits_unscaled_sample :
  fontPx (layoutShieldText (Gfx := gfx) "5" emptyPadding
            {| width := 20; height := 20 |} rectTextConstraint 14)
  = Rmin (14 * PXR (Gfx := gfx))
         (fontSizeThreshold (GfxModule := gfx) * (20 / 9))
  /\ fontSizeThreshold (GfxModule := gfx)
     < fontPx (layoutShieldText (Gfx := gfx) "5" emptyPadding
                 {| width := 20; height := 20 |} rectTextConstraint 14).
Proof.
  pose proof (layoutShieldText_fits_unscaled (Gfx := gfx) "5" emptyPadding
                {| width := 20; height := 20 |} rectTextConstraint 14) as H.
  cbv zeta in H. rewrite sample_fit_interior in H.
  destruct H as (E & _ & _ & _ & G); [exact sample_reference | lra |].
  split; [exact E|].
  apply G; [lra | layout; lra | layout; lra].
Defined.

Lemma ellipseTextConstraint_formula_sample :
  scale (ellipseTextConstraint {| width := 10; height := 5 |}
                               {| width := 4; height := 2 |}) =
  (10 / 2 * (5 / 2)) /
  sqrt ((10 / 2) ^ 2 * (2 / 2) ^ 2 + (5 / 2) ^ 2 * (4 / 2) ^ 2).
Proof.
  apply (ellipseTextConstraint_formula {| width := 10; height := 5 |}
                                       {| width := 4; height := 2 |});
    cbn [width height]; lra.
Defined.

(** A radius of 20 on a space of 10 by 10 leaves the rounded rectangle a
    negative scale. *)
Lemma roundedRect_scale_negative :
  0 <= 20
  /\ scale (roundedRectTextConstraint {| width := 10; height := 10 |}
                                      {| width := 1; height := 1 |} 20) < 0.
Proof.
  split; [lra|]. rewrite roundedRect_scale. cbn [width height].
  pose proof sqrt_2_bounds. minimum.
Qed.

Lemma sample_radius :
  0 <= 2 <= Rmin (width {| width := 10; height := 5 |})
                 (height {| width := 10; height := 5 |}) / 2.
Proof. cbn [width height]. split; minimum. Qed.

(** At font size 0 every estimate is 0, so "111" and "WWW" agree. *)
Lemma widthOfText_agree_at_zero :
  widthOfText "111" 0 = widthOfText "WWW" 0.
Proof. rewrite widthOfText_111, widthOfText_WWW. ring. Qed.

Lemma widthOfText_digit_equivalence_sample :
  widthOfText "111" 12 = widthOfText "222" 12
  /\ widthOfText "111" 12 <> widthOfText "WWW" 12.
Proof.
  destruct widthOfText_digit_equivalence as [Every Real].
  split; [exact (proj1 (Every R RealNumber 12))|].
  apply (Real 12). lra.
Defined.

(** With side paddings of 10 on bounds of 20 by 20, both positive, no
    width is left and the empty text is laid out at font size 0, which is
    not negative. *)
Lemma empty_text_font_size_zero :
  0 < 20
  /\ fontPx (layoutShieldText (Gfx := gfx) ""
               {| top := None; bottom := None;
                  left := Some 10; right := Some 10 |}
               {| width := 20; height := 20 |} rectTextConstraint 14) = 0.
Proof. split; [lra|]. layout. minimum. Qed.

Lemma sample_reference_above_zero : 0 < fontSizeThreshold (GfxModule := gfx).
Proof. layout. lra. Qed.

Lemma sample_width_left :
  0 < width {| width := 20; height := 20 |}
      - sideOrZero (left emptyPadding) * PXR (Gfx := gfx)
      - sideOrZero (right emptyPadding) * PXR (Gfx := gfx).
Proof. layout. lra. Qed.

End OnSample.

(** ** Further properties of the estimator *)

Section RealEstimator.

Local Open Scope R_scope.

Lemma sum_widths_from (l : list ascii) (len : R) :
  fold_left (fun len char => add len (widthOfChar char)) l len =
  len + fold_left (fun len char => add len (widthOfChar char)) l (lit 0).
Proof.
  revert len. induction l as [|c l IH]; intros len; cbn [fold_left].
  - real_ops. lra.
  - rewrite IH, (IH (add (lit 0) (widthOfChar c))). real_ops. lra.
Qed.

Lemma widthOfChar_bounds (char : ascii) :
  1 / 3 <= widthOfChar char <= 2 / 3.
Proof.
  destruct char as [[] [] [] [] [] [] [] []];
    cbv [widthOfChar]; real_ops; lra.
Qed.

Lemma sum_widths_bounds (l : list ascii) :
  INR (List.length l) / 3
  <= fold_left (fun len char => add len (widthOfChar char)) l (lit 0)
  <= INR (List.length l) * (2 / 3).
Proof.
  induction l as [|c l IH].
  - cbn [fold_left List.length INR]. real_ops. lra.
  - cbn [fold_left]. rewrite sum_widths_from.
    change (List.length (c :: l)) with (S (List.length l)). rewrite S_INR.
    pose proof (widthOfChar_bounds c). real_ops. lra.
Qed.

(** The estimate, as the font size times the summed em widths. *)
Lemma widthOfText_sum (text : string) (fontSize : R) :
  widthOfText text fontSize =
  fontSize *
  ((INR (String.length text) - 1) / 12
   + fold_left (fun len char => add len (widthOfChar char))
       (list_ascii_of_string text) (lit 0)).
Proof.
  unfold widthOfText. rewrite sum_widths_from. unfold ofNat.
  rewrite INR_IZR_INZ. real_ops. f_equal. field.
Qed.

Lemma widthOfText_unit (text : string) (fontSize : R) :
  widthOfText text fontSize = fontSize * widthOfText text 1.
Proof. rewrite (widthOfText_sum text 1), widthOfText_sum. ring. Qed.

Lemma unit_width_bounds (text : string) :
  let n := INR (String.length text) in
  (n - 1) / 12 + n / 3 <= widthOfText text 1 <= (n - 1) / 12 + n * (2 / 3).
Proof.
  intros n. subst n. rewrite widthOfText_sum.
  pose proof (sum_widths_bounds (list_ascii_of_string text)) as B.
  rewrite length_list_ascii in B. lra.
Qed.

Lemma unit_width_pos (text : string) :
  text <> ""%string -> 0 < widthOfText text 1.
Proof.
  intros Ht. pose proof (unit_width_bounds text) as B. cbv zeta in B.
  destruct text as [|c text]; [congruence|].
  cbn [String.length] in B. rewrite S_INR in B.
  pose proof (pos_INR (String.length text)). lra.
Qed.

Lemma unit_width_nonzero (text : string) : widthOfText text 1 <> 0.
Proof.
  destruct text as [|c text].
  - rewrite widthOfText_empty. lra.
  - assert (0 < widthOfText (String c text) 1)
      by (apply unit_width_pos; discriminate).
    lra.
Qed.

(** X1.  The estimate is proportional to the font size: scaling the
    font size by [k] scales the estimated width by [k], so an estimate is
    the font size times the estimate at size 1. *)
Theorem widthOfText_scales (text : string) (fontSize k : R) :
  widthOfText text (k * fontSize) = k * widthOfText text fontSize
  /\ widthOfText text fontSize = fontSize * widthOfText text 1.
Proof.
  split; [|apply widthOfText_unit].
  rewrite (widthOfText_unit text (k * fontSize)).
  rewrite (widthOfText_unit text fontSize).
  ring.
Qed.

(** X2.  Over the reals, the estimate of two texts put together is the
    sum of their estimates plus one more inter-character gap of
    [fontSize / 12]; this holds for empty texts too, whose estimate is
    minus one gap. *)
Theorem widthOfText_append (text1 text2 : string) (fontSize : R) :
  widthOfText (text1 ++ text2) fontSize =
  widthOfText text1 fontSize + widthOfText text2 fontSize + fontSize / 12.
Proof.
  rewrite !widthOfText_sum.
  assert (L : list_ascii_of_string (text1 ++ text2) =
              (list_ascii_of_string text1 ++ list_ascii_of_string text2)%list).
  { induction text1 as [|c t IH]; cbn; [reflexivity | now rewrite IH]. }
  rewrite L, fold_left_app, sum_widths_from.
  rewrite <- !length_list_ascii, L, length_app, plus_INR. field.
Qed.

(** X3.  Over the reals, every character counts between 1/3 em and 2/3
    em, so at a font size of 0 or more a text of [n] characters is
    estimated between [fontSize * ((n - 1) / 12 + n / 3)] and
    [fontSize * ((n - 1) / 12 + n * (2 / 3))]. *)
Theorem widthOfText_bounds (text : string) (fontSize : R) :
  0 <= fontSize ->
  let n := INR (String.length text) in
  fontSize * ((n - 1) / 12 + n / 3) <= widthOfText text fontSize
  /\ widthOfText text fontSize <= fontSize * ((n - 1) / 12 + n * (2 / 3)).
Proof.
  intros Hf n. subst n. rewrite widthOfText_unit.
  pose proof (unit_width_bounds text) as B. cbv zeta in B.
  split; apply Rmult_le_compat_l; lra.
Qed.

End RealEstimator.

(** ** Further properties of the solver *)

Section RealSolver.

Local Open Scope R_scope.

Lemma Rmin_scale (k a b : R) :
  0 <= k -> k * Rmin a b = Rmin (k * a) (k * b).
Proof.
  intros Hk. unfold Rmin.
  destruct (Rle_dec a b), (Rle_dec (k * a) (k * b)); try reflexivity; nra.
Qed.

(** Comparing two positive numbers by their squares, up to a positive
    common factor. *)
Lemma sqr_le_pos (x y c : R) :
  0 < c -> 0 <= x -> 0 < y -> x * x * c <= y * y * c -> x <= y.
Proof.
  intros Hc Hx Hy H.
  assert (x * x <= y * y) by (apply Rmult_le_reg_r with c; assumption).
  apply Rnot_lt_le. intros Hlt. nra.
Qed.

Lemma rect_scale (spaceBounds textBounds : Bounds R) :
  scale (rectTextConstraint spaceBounds textBounds) =
  Rmin (width spaceBounds / width textBounds)
       (height spaceBounds / height textBounds).
Proof. reflexivity. Qed.

Lemma ellipse_scale (spaceBounds textBounds : Bounds R) :
  ellipseScale spaceBounds textBounds =
  width spaceBounds * height spaceBounds /
  sqrt (width spaceBounds * width spaceBounds
        * height textBounds * height textBounds
        + height spaceBounds * height spaceBounds
          * width textBounds * width textBounds).
Proof. reflexivity. Qed.

(** The square of the ellipse scale, free of the root. *)
Lemma ellipse_scale_sqr (a b x0 y0 : R) :
  0 < a -> 0 < b -> 0 < x0 -> 0 < y0 ->
  let s := a * b / sqrt (a * a * y0 * y0 + b * b * x0 * x0) in
  0 < s /\ s * s * (a * a * y0 * y0 + b * b * x0 * x0) = a * a * (b * b).
Proof.
  intros Ha Hb Hx Hy s. subst s.
  pose proof (ellipse_radicand_pos Ha Hb Hx Hy) as HD.
  set (D := a * a * y0 * y0 + b * b * x0 * x0) in *.
  assert (HR : 0 < sqrt D) by (apply sqrt_lt_R0; assumption).
  assert (HS : sqrt D * sqrt D = D) by (apply sqrt_sqrt; lra).
  split.
  - apply Rdiv_lt_0_compat; [apply Rmult_lt_0_compat|]; assumption.
  - rewrite <- HS at 3. field. lra.
Qed.

(** X4.  Over the reals, for a text of positive width and height, the
    text scaled by the rectangle scale fits the space in both directions
    and touches it in one; no larger scale fits. *)
Theorem rectTextConstraint_fits (spaceBounds textBounds : Bounds R) :
  0 < width textBounds -> 0 < height textBounds ->
  let s := scale (rectTextConstraint spaceBounds textBounds) in
  s * width textBounds <= width spaceBounds
  /\ s * height textBounds <= height spaceBounds
  /\ (s * width textBounds = width spaceBounds
      \/ s * height textBounds = height spaceBounds)
  /\ (forall k : R,
        k * width textBounds <= width spaceBounds ->
        k * height textBounds <= height spaceBounds -> k <= s).
Proof.
  intros Hx Hy s. subst s. rewrite rect_scale.
  destruct spaceBounds as [a b], textBounds as [x0 y0]. cbn [width height] in *.
  assert (Ea : a / x0 * x0 = a) by (field; lra).
  assert (Eb : b / y0 * y0 = b) by (field; lra).
  pose proof (Rmin_l (a / x0) (b / y0)) as Hl.
  pose proof (Rmin_r (a / x0) (b / y0)) as Hr.
  split; [nra|]. split; [nra|]. split.
  - unfold Rmin.
    destruct (Rle_dec (a / x0) (b / y0)); [left | right]; assumption.
  - intros k Kx Ky. apply Rmin_glb.
    + apply Rmult_le_reg_r with x0; lra.
    + apply Rmult_le_reg_r with y0; lra.
Qed.

(** X5.  Over the reals, for positive extents, the text box scaled by the
    ellipse scale and centred in the space has its corner exactly on the
    ellipse inscribed in the space.  The south-half-ellipse scale does the
    same for a box of width [textBounds.height] and height
    [textBounds.width / 2]. *)
Theorem ellipseTextConstraint_corner (spaceBounds textBounds : Bounds R) :
  0 < width spaceBounds -> 0 < height spaceBounds ->
  0 < width textBounds -> 0 < height textBounds ->
  let a := width spaceBounds in
  let b := height spaceBounds in
  let x0 := width textBounds in
  let y0 := height textBounds in
  let s := scale (ellipseTextConstraint spaceBounds textBounds) in
  let s' := scale (southHalfellipseTextConstraint spaceBounds textBounds) in
  ((s * x0 / 2) / (a / 2)) ^ 2 + ((s * y0 / 2) / (b / 2)) ^ 2 = 1
  /\ ((s' * y0 / 2) / (a / 2)) ^ 2 + ((s' * (x0 / 2) / 2) / (b / 2)) ^ 2 = 1.
Proof.
  destruct spaceBounds as [a b], textBounds as [x0 y0].
  cbn [width height]. intros Ha Hb Hx Hy. split.
  - destruct (ellipse_scale_sqr Ha Hb Hx Hy) as [_ E].
    cbn [scale ellipseTextConstraint]. rewrite ellipse_scale.
    cbn [width height].
    set (t := a * b / sqrt (a * a * y0 * y0 + b * b * x0 * x0)) in *.
    clearbody t.
    replace (((t * x0 / 2) / (a / 2)) ^ 2 + ((t * y0 / 2) / (b / 2)) ^ 2)
      with (t * t * (a * a * y0 * y0 + b * b * x0 * x0) / (a * a * (b * b)))
      by (field; split; lra).
    rewrite E. field. split; lra.
  - assert (Hx2 : 0 < x0 / 2) by lra.
    destruct (ellipse_scale_sqr Ha Hb Hy Hx2) as [_ E].
    cbn [scale southHalfellipseTextConstraint].
    rewrite ellipse_scale. cbn [width height]. rewrite lit_2.
    cbn [div RealNumber].
    set (t := a * b
              / sqrt (a * a * (x0 / 2) * (x0 / 2) + b * b * y0 * y0)) in *.
    clearbody t.
    replace (((t * y0 / 2) / (a / 2)) ^ 2 + ((t * (x0 / 2) / 2) / (b / 2)) ^ 2)
      with (t * t * (a * a * (x0 / 2) * (x0 / 2) + b * b * y0 * y0)
            / (a * a * (b * b)))
      by (field; split; lra).
    rewrite E. field. split; lra.
Qed.

(** X6.  Over the reals, for positive extents the ellipse scale is at
    most the rectangle scale and at least the rectangle scale over
    [sqrt 2]; the rounded-rectangle scale, for a radius of 0 or more, is
    at most the rectangle scale. *)
Theorem solver_ordering (spaceBounds textBounds : Bounds R) :
  0 < width spaceBounds -> 0 < height spaceBounds ->
  0 < width textBounds -> 0 < height textBounds ->
  let rect := scale (rectTextConstraint spaceBounds textBounds) in
  let ellipse := scale (ellipseTextConstraint spaceBounds textBounds) in
  ellipse <= rect
  /\ rect <= sqrt 2 * ellipse
  /\ (forall radius : R, 0 <= radius ->
        scale (roundedRectTextConstraint spaceBounds textBounds radius)
        <= rect).
Proof.
  intros Ha Hb Hx Hy rect ellipse. subst rect ellipse.
  rewrite rect_scale. cbn [scale ellipseTextConstraint]. rewrite ellipse_scale.
  destruct spaceBounds as [a b], textBounds as [x0 y0]. cbn [width height] in *.
  destruct (ellipse_scale_sqr Ha Hb Hx Hy) as [Hs E].
  set (D := a * a * y0 * y0 + b * b * x0 * x0) in *.
  set (s := a * b / sqrt D) in *.
  assert (Ex : a / x0 * x0 = a) by (field; lra).
  assert (Ey : b / y0 * y0 = b) by (field; lra).
  assert (Px : 0 < a / x0) by (apply Rdiv_lt_0_compat; assumption).
  assert (Py : 0 < b / y0) by (apply Rdiv_lt_0_compat; assumption).
  pose proof sqrt_2_bounds as [S2 _].
  assert (S22 : sqrt 2 * sqrt 2 = 2) by (apply sqrt_sqrt; lra).
  split; [|split].
  - apply Rmin_glb.
    + (* s * x0 <= a, as (s x0)^2 b^2 <= a^2 b^2 *)
      apply Rmult_le_reg_r with x0; [assumption|]. rewrite Ex.
      assert (0 < s * x0) by (apply Rmult_lt_0_compat; assumption).
      assert ((s * x0) * (s * x0) * (b * b) <= a * a * (b * b)).
      { rewrite <- E. unfold D. nra. }
      apply sqr_le_pos with (b * b); nra.
    + apply Rmult_le_reg_r with y0; [assumption|]. rewrite Ey.
      assert (0 < s * y0) by (apply Rmult_lt_0_compat; assumption).
      assert ((s * y0) * (s * y0) * (a * a) <= b * b * (a * a)).
      { replace (b * b * (a * a)) with (a * a * (b * b)) by ring.
        rewrite <- E. unfold D. nra. }
      apply sqr_le_pos with (a * a); nra.
  - set (m := Rmin (a / x0) (b / y0)).
    assert (Hm : 0 < m) by (apply Rmin_pos; assumption).
    assert (Mx : m * x0 <= a).
    { rewrite <- Ex. apply Rmult_le_compat_r; [lra | apply Rmin_l]. }
    assert (My : m * y0 <= b).
    { rewrite <- Ey. apply Rmult_le_compat_r; [lra | apply Rmin_r]. }
    (* m^2 D <= 2 a^2 b^2 = 2 s^2 D *)
    assert (HD : 0 < D) by (apply ellipse_radicand_pos; assumption).
    assert (M2 : m * m * D <= 2 * (s * s * D)).
    { rewrite E. unfold D.
      assert (0 <= m * x0) by (apply Rmult_le_pos; lra).
      assert (0 <= m * y0) by (apply Rmult_le_pos; lra).
      assert (Y : (m * y0) * (m * y0) <= b * b)
        by (apply Rmult_le_compat; lra).
      assert (X : (m * x0) * (m * x0) <= a * a)
        by (apply Rmult_le_compat; lra).
      apply (Rmult_le_compat_l (a * a)) in Y; [|nra].
      apply (Rmult_le_compat_l (b * b)) in X; [|nra].
      replace (m * m * (a * a * y0 * y0 + b * b * x0 * x0))
        with (a * a * (m * y0 * (m * y0)) + b * b * (m * x0 * (m * x0)))
        by ring.
      lra. }
    assert (M3 : m * m <= (sqrt 2 * s) * (sqrt 2 * s)).
    { replace ((sqrt 2 * s) * (sqrt 2 * s)) with (sqrt 2 * sqrt 2 * (s * s))
        by ring.
      rewrite S22. apply Rmult_le_reg_r with D; lra. }
    assert (0 < sqrt 2 * s) by (apply Rmult_lt_0_compat; lra).
    apply sqr_le_pos with 1; lra.
  - intros radius Hr. rewrite roundedRect_scale. cbn [width height].
    pose proof sqrt_2_bounds as [_ S2'].
    assert (K : 0 <= radius * (2 - sqrt 2)) by nra.
    apply Rmin_glb.
    + apply Rle_trans with ((a - radius * (2 - sqrt 2)) / x0); [apply Rmin_l|].
      apply Rmult_le_reg_r with x0; [assumption|].
      rewrite Ex. replace ((a - radius * (2 - sqrt 2)) / x0 * x0)
        with (a - radius * (2 - sqrt 2)) by (field; lra). lra.
    + apply Rle_trans with ((b - radius * (2 - sqrt 2)) / y0); [apply Rmin_r|].
      apply Rmult_le_reg_r with y0; [assumption|].
      rewrite Ey. replace ((b - radius * (2 - sqrt 2)) / y0 * y0)
        with (b - radius * (2 - sqrt 2)) by (field; lra). lra.
Qed.

End RealSolver.

(** ** Further properties of the layout engine *)

Section RealLayout.

Context {Gfx : GfxModule R}.

Local Open Scope R_scope.

Lemma emHeight_real (fontSize : R) :
  emHeightForFontSize fontSize = fontSize * 3 / 4.
Proof. unfold emHeightForFontSize. real_ops. field. Qed.

Lemma estimatedTextBounds_real (text : string) :
  estimatedTextBounds text =
  {| height := fontSizeThreshold * 3 / 4;
     width := fontSizeThreshold * widthOfText text 1 |}.
Proof.
  unfold estimatedTextBounds. now rewrite emHeight_real, widthOfText_unit.
Qed.

(** The size the rectangle fit allows, with the reference size
    cancelled. *)
Lemma rect_fitted_size (text : string) (avail : Bounds R) :
  0 < fontSizeThreshold ->
  fontSizeThreshold *
  scale (rectTextConstraint avail (estimatedTextBounds text)) =
  Rmin (width avail / widthOfText text 1) (height avail / (3 / 4)).
Proof.
  intros HT. rewrite estimatedTextBounds_real, rect_scale. cbn [width height].
  pose proof (unit_width_nonzero (text := text)) as Hu.
  rewrite Rmin_scale by lra. f_equal; field; lra.
Qed.

Lemma Rmin_below_l (a b : R) : Rmin a b < a -> Rmin a b = b.
Proof. unfold Rmin. destruct (Rle_dec a b); [lra | reflexivity]. Qed.

Lemma round_near (x : R) :
  x - 1 / 2 < Math_round x <= x + 1 / 2
  /\ exists z : Z, Math_round x = IZR z.
Proof.
  cbn [Math_round RealNumber].
  destruct (base_Int_part (x + / 2)) as [Hle Hgt].
  split; [lra | eexists; reflexivity].
Qed.

(** X7.  Over the reals, with the rectangle constraint the font size
    does not depend on the value of the reference font size, as long as
    it is positive: it is the smaller of the scaled maximum and of the
    sizes at which the estimated width and the estimated height fill the
    padded bounds. *)
Theorem layoutShieldText_reference_free (text : string) (padding : Padding R)
  (bounds : Bounds R) (maxFontSize : R) :
  0 < fontSizeThreshold ->
  fontPx (layoutShieldText text padding bounds rectTextConstraint maxFontSize) =
  Rmin (maxFontSize * PXR)
    (Rmin (width (interior padding bounds) / widthOfText text 1)
          (height (interior padding bounds) / emHeightForFontSize 1)).
Proof.
  intros HT.
  rewrite layoutShieldText_fontPx, availableBounds_interior, emHeight_real.
  cbn [Math_min mul RealNumber]. rewrite rect_fitted_size by assumption.
  do 3 f_equal. lra.
Qed.

(** What the rectangle fit leaves of the font size, at its estimate. *)
Lemma rect_fit_within (text : string) (avail : Bounds R) (ceiling : R) :
  0 < fontSizeThreshold -> text <> ""%string ->
  let size :=
    Rmin ceiling
      (fontSizeThreshold *
       scale (rectTextConstraint avail (estimatedTextBounds text))) in
  widthOfText text size <= width avail
  /\ emHeightForFontSize size <= height avail
  /\ (size < ceiling ->
      widthOfText text size = width avail
      \/ emHeightForFontSize size = height avail).
Proof.
  intros HT Ht size. subst size. rewrite rect_fitted_size by assumption.
  pose proof (unit_width_pos Ht) as Hu.
  set (u := widthOfText text 1) in *.
  set (f := Rmin ceiling (Rmin (width avail / u) (height avail / (3 / 4)))).
  rewrite (widthOfText_unit text f), emHeight_real. fold u.
  assert (Ew : width avail / u * u = width avail) by (field; lra).
  assert (Eh : height avail / (3 / 4) * 3 / 4 = height avail) by field.
  pose proof (Rmin_r ceiling
                (Rmin (width avail / u) (height avail / (3 / 4)))) as F.
  fold f in F.
  pose proof (Rmin_l (width avail / u) (height avail / (3 / 4))) as Fw.
  pose proof (Rmin_r (width avail / u) (height avail / (3 / 4))) as Fh.
  split; [nra|]. split; [lra|].
  intros Hlt.
  assert (Ef : f = Rmin (width avail / u) (height avail / (3 / 4)))
    by (apply Rmin_below_l; exact Hlt).
  rewrite Ef. unfold Rmin.
  destruct (Rle_dec (width avail / u) (height avail / (3 / 4)));
    [left; lra | right; lra].
Qed.

(** X8.  Over the reals, with the rectangle constraint, a positive
    reference size and a text that is not empty, the text estimated at
    the font size of the layout fits the padded bounds in width and in
    height; and when the size stays below the scaled maximum, it fills
    one of the two. *)
Theorem layoutShieldText_rect_fits (text : string) (padding : Padding R)
  (bounds : Bounds R) (maxFontSize : R) :
  0 < fontSizeThreshold -> text <> ""%string ->
  let size :=
    fontPx (layoutShieldText text padding bounds rectTextConstraint
              maxFontSize) in
  let avail := interior padding bounds in
  widthOfText text size <= width avail
  /\ emHeightForFontSize size <= height avail
  /\ (size < maxFontSize * PXR ->
      widthOfText text size = width avail
      \/ emHeightForFontSize size = height avail).
Proof.
  intros HT Ht size avail. subst size.
  rewrite layoutShieldText_fontPx, availableBounds_interior. fold avail.
  apply (rect_fit_within avail (maxFontSize * PXR) HT Ht).
Qed.

(** X9.  Over the reals, with the ellipse constraint, a positive
    reference size, a text that is not empty, padded bounds of positive
    extent and a scaled maximum of 0 or more, the font size of the layout
    is 0 or more and the text box estimated at it, centred, has its
    corner inside or on the ellipse inscribed in the padded bounds. *)
Theorem layoutShieldText_ellipse_fits (text : string) (padding : Padding R)
  (bounds : Bounds R) (maxFontSize : R) :
  0 < fontSizeThreshold -> text <> ""%string ->
  0 < width (interior padding bounds) ->
  0 < height (interior padding bounds) ->
  0 <= maxFontSize * PXR ->
  let size :=
    fontPx (layoutShieldText text padding bounds ellipseTextConstraint
              maxFontSize) in
  let avail := interior padding bounds in
  0 <= size
  /\ ((widthOfText text size / 2) / (width avail / 2)) ^ 2
     + ((emHeightForFontSize size / 2) / (height avail / 2)) ^ 2 <= 1.
Proof.
  intros HT Ht HW HH HM size avail. subst size.
  rewrite layoutShieldText_fontPx, availableBounds_interior.
  fold avail in HW, HH |- *.
  cbn [Math_min mul RealNumber scale ellipseTextConstraint].
  rewrite estimatedTextBounds_real, ellipse_scale. cbn [width height].
  pose proof (unit_width_pos Ht) as Hu.
  set (u := widthOfText text 1) in *.
  set (W := width avail) in *. set (H := height avail) in *.
  assert (Hx : 0 < fontSizeThreshold * u) by (apply Rmult_lt_0_compat; lra).
  assert (Hy : 0 < fontSizeThreshold * 3 / 4) by lra.
  destruct (ellipse_scale_sqr HW HH Hx Hy) as [Hs E].
  set (s := W * H / sqrt (W * W * (fontSizeThreshold * 3 / 4)
                            * (fontSizeThreshold * 3 / 4)
                          + H * H * (fontSizeThreshold * u)
                            * (fontSizeThreshold * u))) in *.
  clearbody s.
  set (g := fontSizeThreshold * s).
  assert (Hg : 0 < g) by (apply Rmult_lt_0_compat; assumption).
  set (K := u * u * (H * H) + 3 / 4 * (3 / 4) * (W * W)).
  assert (EK : g * g * K = W * W * (H * H)).
  { rewrite <- E. unfold g, K. field. }
  assert (HK : 0 <= K) by (unfold K; nra).
  set (f := Rmin (maxFontSize * PXR) g).
  assert (F0 : 0 <= f) by (apply Rmin_glb; lra).
  assert (Fg : f <= g) by apply Rmin_r.
  split; [exact F0|].
  rewrite (widthOfText_unit text f), emHeight_real. fold u.
  replace ((f * u / 2 / (W / 2)) ^ 2 + (f * 3 / 4 / 2 / (H / 2)) ^ 2)
    with (f * f * K / (W * W * (H * H))) by (unfold K; field; split; lra).
  assert (HWH : 0 < W * W * (H * H))
    by (repeat apply Rmult_lt_0_compat; assumption).
  apply Rmult_le_reg_r with (W * W * (H * H)); [assumption|].
  replace (f * f * K / (W * W * (H * H)) * (W * W * (H * H)))
    with (f * f * K) by (field; split; lra).
  rewrite Rmult_1_l, <- EK.
  apply Rmult_le_compat_r; [assumption|].
  apply Rmult_le_compat; lra.
Qed.

(** X10.  With the rectangle constraint, a positive reference size and a
    text that is not empty, bounds that are at least as wide and as high
    never give a smaller font size, the padding and the maximum being
    the same. *)
Theorem layoutShieldText_grows_with_bounds (text : string)
  (padding : Padding R) (bounds bounds' : Bounds R) (maxFontSize : R) :
  0 < fontSizeThreshold -> text <> ""%string ->
  width bounds <= width bounds' -> height bounds <= height bounds' ->
  fontPx (layoutShieldText text padding bounds rectTextConstraint maxFontSize)
  <= fontPx (layoutShieldText text padding bounds' rectTextConstraint
               maxFontSize).
Proof.
  intros HT Ht HW HH. rewrite !layoutShieldText_fontPx.
  cbn [Math_min mul RealNumber]. rewrite !rect_fitted_size by assumption.
  pose proof (unit_width_pos Ht) as Hu.
  unfold availableBounds. cbn [width height sub RealNumber].
  apply Rle_min_compat_l.
  apply Rle_trans with
    (Rmin ((width bounds' - scaledOrZero (left padding)
            - scaledOrZero (right padding)) / widthOfText text 1)
          ((height bounds - scaledOrZero (top padding)
            - scaledOrZero (bottom padding)) / (3 / 4))).
  - apply Rle_min_compat_r. apply Rmult_le_compat_r; [|lra].
    apply Rlt_le, Rinv_0_lt_compat, Hu.
  - apply Rle_min_compat_l. apply Rmult_le_compat_r; lra.
Qed.

(** X11.  Over the reals, whatever the constraint function: the baseline
    X lies midway between the left and the right padding edge, the
    baseline Y is an integer, and the text box (the em height above the
    baseline) is centred between the top and the bottom padding edge to
    within the rounding: the gap above and the gap below differ by at
    most 1.  The padding edges are the sides of the padding, scaled by
    the pixel ratio, in from the bounds. *)
Theorem layoutShieldText_centered (text : string) (padding : Padding R)
  (bounds : Bounds R)
  (textLayoutFunc : Bounds R -> Bounds R -> TextConstraint R)
  (maxFontSize : R) :
  let textLayout :=
    layoutShieldText text padding bounds textLayoutFunc maxFontSize in
  let textHeight := emHeightForFontSize (fontPx textLayout) in
  let gapLeft := xBaseline textLayout - sideOrZero (left padding) * PXR in
  let gapRight :=
    (width bounds - sideOrZero (right padding) * PXR)
    - xBaseline textLayout in
  let gapAbove :=
    (yBaseline textLayout - textHeight) - sideOrZero (top padding) * PXR in
  let gapBelow :=
    (height bounds - sideOrZero (bottom padding) * PXR)
    - yBaseline textLayout in
  gapLeft = gapRight
  /\ (exists z : Z, yBaseline textLayout = IZR z)
  /\ -1 < gapAbove - gapBelow <= 1.
Proof.
  intros textLayout textHeight gapLeft gapRight gapAbove gapBelow.
  subst gapLeft gapRight gapAbove gapBelow.
  rewrite <- !scaledOrZero_side.
  set (padTop := scaledOrZero (top padding)).
  set (padBot := scaledOrZero (bottom padding)).
  set (padLeft := scaledOrZero (left padding)).
  set (padRight := scaledOrZero (right padding)).
  assert (X : xBaseline textLayout =
              padLeft + (width bounds - padLeft - padRight) / 2).
  { unfold textLayout, layoutShieldText. cbn [xBaseline]. rewrite lit_2.
    reflexivity. }
  assert (Y : yBaseline textLayout =
              Math_round (padTop
                          + (height bounds - padTop - padBot - textHeight) / 2
                          + textHeight)).
  { unfold textHeight, textLayout, layoutShieldText.
    cbn [yBaseline fontPx]. rewrite lit_2. reflexivity. }
  destruct (round_near (padTop
                        + (height bounds - padTop - padBot - textHeight) / 2
                        + textHeight)) as [[Lo Hi] [z Hz]].
  rewrite <- Y in Lo, Hi, Hz.
  split; [rewrite X; lra|]. split; [exists z; exact Hz|]. lra.
Qed.

Lemma scaledOrZero_orZero (p : option R) :
  scaledOrZero (orZero p) = scaledOrZero p.
Proof.
  destruct p as [v|]; [reflexivity|].
  unfold orZero. rewrite !scaledOrZero_real, lit_0.
  cbn [mul RealNumber]. ring.
Qed.

(** X12.  A padding side that is missing counts as 0: setting every
    missing side to 0 leaves the layout as it is, and a definition with
    no padding is laid out like one with the zero padding of the default
    definition. *)
Theorem layoutShieldText_missing_padding (text : string)
  (padding : Padding R) (bounds : Bounds R)
  (textLayoutFunc : Bounds R -> Bounds R -> TextConstraint R)
  (maxFontSize : R) :
  layoutShieldText text (zeroFilled padding) bounds textLayoutFunc maxFontSize
  = layoutShieldText text padding bounds textLayoutFunc maxFontSize
  /\ (forall c m,
        layoutShieldTextFromDef text
          (Some {| Def.padding := None; Def.textLayoutConstraint := c;
                   Def.maxFontSize := m |}) bounds
        = layoutShieldTextFromDef text
            (Some {| Def.padding := Def.padding defaultDefForLayout;
                     Def.textLayoutConstraint := c;
                     Def.maxFontSize := m |}) bounds).
Proof.
  assert (E : forall p f m,
    layoutShieldText text (zeroFilled p) bounds f m
    = layoutShieldText text p bounds f m).
  { intros p f m. unfold layoutShieldText, zeroFilled.
    cbn [top bottom left right]. rewrite !scaledOrZero_orZero. reflexivity. }
  split; [apply E|].
  intros c m. unfold layoutShieldTextFromDef, defaultDefForLayout.
  cbn [Def.padding Def.textLayoutConstraint Def.maxFontSize].
  symmetry. apply (E emptyPadding).
Qed.

End RealLayout.

(** ** Further properties of the renderer *)

Section Compositing.

Context {num : Type} {N : JSNumber num}.
Context {Gfx : GfxModule num} {ShieldDef : ShieldDefModule num}.
Context {Color : ColorModule}.

Local Open Scope js_scope.

Lemma calls_set_textAlign v (ctx : Context2D num) :
  calls (set_textAlign v ctx) = calls ctx.
Proof. reflexivity. Qed.

Lemma calls_set_textBaseline v (ctx : Context2D num) :
  calls (set_textBaseline v ctx) = calls ctx.
Proof. reflexivity. Qed.

Lemma calls_set_font v (ctx : Context2D num) :
  calls (set_font v ctx) = calls ctx.
Proof. reflexivity. Qed.

Lemma calls_set_fillStyle v (ctx : Context2D num) :
  calls (set_fillStyle v ctx) = calls ctx.
Proof. reflexivity. Qed.

Lemma calls_set_strokeStyle v (ctx : Context2D num) :
  calls (set_strokeStyle v ctx) = calls ctx.
Proof. reflexivity. Qed.

Lemma calls_set_shadowColor v (ctx : Context2D num) :
  calls (set_shadowColor v ctx) = calls ctx.
Proof. reflexivity. Qed.

Lemma calls_set_shadowBlur v (ctx : Context2D num) :
  calls (set_shadowBlur v ctx) = calls ctx.
Proof. reflexivity. Qed.

Lemma calls_set_lineWidth v (ctx : Context2D num) :
  calls (set_lineWidth v ctx) = calls ctx.
Proof. reflexivity. Qed.

Lemma calls_draw o text x y (ctx : Context2D num) :
  calls (draw o text x y ctx) =
  (calls ctx ++
   [{| op := o; drawnText := text; atX := x; atY := y;
       under := state ctx |}])%list.
Proof. reflexivity. Qed.

(** Reads the draw log through the assignments and the draws. *)
Ltac draw_log :=
  repeat first
    [ rewrite calls_draw | rewrite calls_set_textAlign
    | rewrite calls_set_textBaseline | rewrite calls_set_font
    | rewrite calls_set_fillStyle | rewrite calls_set_strokeStyle
    | rewrite calls_set_shadowColor | rewrite calls_set_shadowBlur
    | rewrite calls_set_lineWidth ].

(** X13.  In every number model, [drawShieldHaloText] followed by
    [drawShieldText] draws the outline and then the fill of the text at
    the same position and under the same font.  The fill is drawn with
    the fill color the context came with and a shadow blur of 0, but with
    the halo's shadow color still in place: the stroke color the context
    came with.  Afterwards the fill and stroke colors are the caller's,
    while the shadow color is left at the stroke color and the line
    width at the halo's [2 * PXR]. *)
Theorem halo_then_text (ctx : Context2D num) (text : string)
  (textLayout : TextLayout num) :
  let ctx' :=
    drawShieldText (drawShieldHaloText ctx text textLayout) text textLayout in
  (exists halo fill : DrawState num,
     calls ctx' =
       (calls ctx ++
        [{| op := StrokeText; drawnText := text;
            atX := xBaseline textLayout; atY := yBaseline textLayout;
            under := halo |};
         {| op := FillText; drawnText := text;
            atX := xBaseline textLayout; atY := yBaseline textLayout;
            under := fill |}])%list
     /\ font halo = shieldFont (fontPx textLayout)
     /\ font fill = shieldFont (fontPx textLayout)
     /\ strokeStyle halo = strokeStyle (state ctx)
     /\ fillStyle fill = fillStyle (state ctx)
     /\ shadowColor fill = strokeStyle (state ctx)
     /\ shadowBlur fill = lit 0)
  /\ fillStyle (state ctx') = fillStyle (state ctx)
  /\ strokeStyle (state ctx') = strokeStyle (state ctx)
  /\ shadowColor (state ctx') = strokeStyle (state ctx)
  /\ lineWidth (state ctx') = lit 2 * PXR.
Proof.
  intros ctx'. subst ctx'. split; [|repeat split].
  do 2 eexists. split.
  - cbv beta zeta delta [drawShieldText drawShieldHaloText fillText strokeText].
    draw_log. rewrite <- app_assoc. reflexivity.
  - repeat split.
Qed.

(** X14.  In every number model, [drawBannerHaloText] followed by
    [drawBannerText] draws the outline and then the fill of the banner
    text at the same position and under the same font; the outline is
    drawn with stroke and shadow color [backgroundFill] and blur 0, the
    fill in black with blur 0 and the shadow color still
    [backgroundFill].  Afterwards the stroke color and the shadow color
    are left at [backgroundFill] and the fill color at black: the
    caller's colors are not restored. *)
Theorem banner_halo_then_text (ctx : Context2D num) (text : string)
  (bannerIndex : num) :
  let ctx' :=
    drawBannerText (drawBannerHaloText ctx text bannerIndex) text bannerIndex in
  let textLayout :=
    layoutShieldTextFromDef text None
      {| width := width (canvas ctx);
         height := bannerSizeH - bannerPadding |} in
  let y :=
    yBaseline textLayout + bannerIndex * bannerSizeH
    - bannerPadding + topPadding in
  (exists halo fill : DrawState num,
     calls ctx' =
       (calls ctx ++
        [{| op := StrokeText; drawnText := text;
            atX := xBaseline textLayout; atY := y; under := halo |};
         {| op := FillText; drawnText := text;
            atX := xBaseline textLayout; atY := y; under := fill |}])%list
     /\ font halo = shieldFont (fontPx textLayout)
     /\ font fill = shieldFont (fontPx textLayout)
     /\ strokeStyle halo = backgroundFill
     /\ shadowColor halo = backgroundFill
     /\ shadowBlur halo = lit 0
     /\ fillStyle fill = "black"%string
     /\ shadowColor fill = backgroundFill
     /\ shadowBlur fill = lit 0)
  /\ strokeStyle (state ctx') = backgroundFill
  /\ fillStyle (state ctx') = "black"%string
  /\ shadowColor (state ctx') = backgroundFill
  /\ shadowBlur (state ctx') = lit 0.
Proof.
  intros ctx' textLayout y. subst ctx'. split; [|repeat split].
  do 2 eexists. split.
  - cbv beta zeta delta [drawBannerText drawBannerHaloText fillText strokeText].
    draw_log. rewrite <- app_assoc. reflexivity.
  - repeat split.
Qed.

End Compositing.

Section RealBanner.

Context {Gfx : GfxModule R} {ShieldDef : ShieldDefModule R}.

Local Open Scope R_scope.

Lemma availableBounds_zero (bounds : Bounds R) :
  availableBounds
    {| top := Some (lit 0); bottom := Some (lit 0);
       left := Some (lit 0); right := Some (lit 0) |} bounds = bounds.
Proof.
  unfold availableBounds. cbn [top bottom left right].
  rewrite !scaledOrZero_real, lit_0. destruct bounds as [w h].
  cbn [width height sub mul RealNumber]. f_equal; ring.
Qed.

(** X15.  Over the reals, with a positive reference size, a banner text
    that is not empty is drawn under a font whose size is at most
    [14 * PXR], and at which its estimated width fits the canvas width
    and its estimated height fits [bannerSizeH - bannerPadding]. *)
Theorem banner_text_fits (ctx : Context2D R) (text : string)
  (bannerIndex : R) :
  0 < fontSizeThreshold -> text <> ""%string ->
  exists (size : R) (during : DrawState R) (x y : R),
    calls (drawBannerText ctx text bannerIndex) =
      (calls ctx ++
       [{| op := FillText; drawnText := text; atX := x; atY := y;
           under := during |}])%list
    /\ font during = shieldFont size
    /\ widthOfText text size <= width (canvas ctx)
    /\ emHeightForFontSize size <= bannerSizeH - bannerPadding
    /\ size <= 14 * PXR.
Proof.
  intros HT Ht.
  set (plate := {| width := width (canvas ctx);
                   height := bannerSizeH - bannerPadding |}).
  exists (fontPx (layoutShieldTextFromDef text None plate)).
  do 3 eexists. split; [reflexivity|]. split; [reflexivity|].
  unfold layoutShieldTextFromDef, defaultDefForLayout.
  cbn [Def.padding Def.textLayoutConstraint Def.maxFontSize].
  rewrite layoutShieldText_fontPx, availableBounds_zero, lit_14.
  destruct (rect_fit_within plate (14 * PXR) HT Ht) as (W & H & _).
  split; [exact W|]. split; [exact H|]. apply Rmin_l.
Qed.

End RealBanner.

(** ** Properties of the test page *)

Section TestPage.

Import ShieldTest.

Local Open Scope Z_scope.

Lemma rowSpan_app (tr1 tr2 : list Cell) :
  rowSpan (tr1 ++ tr2) = rowSpan tr1 + rowSpan tr2.
Proof.
  unfold rowSpan. induction tr1 as [|c tr1 IH]; cbn [app fold_right]; lia.
Qed.

(** The inner loop: one image cell and one progress step per ref. *)
Lemma render_refs (network : string) (refs : list string) :
  forall (tr : list Cell) (progress : Z),
    fold_left
      (fun '(tr, progress) ref =>
         (insertCell (getShieldImage network ref) tr, progress + 1))
      refs (tr, progress)
    = ((tr ++ map (fun ref => {| content := getShieldImage network ref;
                                 colSpan := 1 |}) refs)%list,
       progress + Z.of_nat (List.length refs)).
Proof.
  induction refs as [|ref refs IH]; intros tr progress.
  - cbn. rewrite app_nil_r. f_equal. lia.
  - cbn [fold_left map List.length]. rewrite IH. unfold insertCell.
    rewrite <- app_assoc. f_equal. lia.
Qed.

Lemma rowSpan_images (network : string) (refs : list string) :
  rowSpan (map (fun ref => {| content := getShieldImage network ref;
                              colSpan := 1 |}) refs)
  = Z.of_nat (List.length refs).
Proof.
  induction refs as [|ref refs IH]; [reflexivity|].
  cbn [map List.length]. unfold rowSpan in *. cbn [fold_right colSpan].
  rewrite IH. lia.
Qed.

Lemma renderRow_span (columns : Z) (d : Item.t) (progress : Z) :
  Z.of_nat (List.length (Item.refs d)) <= columns ->
  rowSpan (fst (renderRow columns d progress)) = columns + 2
  /\ snd (renderRow columns d progress)
     = progress + Z.of_nat (List.length (Item.refs d)).
Proof.
  intros Hle. unfold renderRow. rewrite render_refs. cbn [fst snd].
  split; [|reflexivity].
  set (images := map (fun ref => {| content := getShieldImage
                                               (Item.network d) ref;
                                    colSpan := 1 |}) (Item.refs d)).
  set (tr := (insertCell (Text (Item.network d)) [] ++ images)%list).
  assert (Hlen : Z.of_nat (List.length tr)
                 = 1 + Z.of_nat (List.length (Item.refs d))).
  { unfold tr, images, insertCell. rewrite length_app, length_map.
    cbn [List.length app]. lia. }
  assert (Hspan : rowSpan tr = 1 + Z.of_nat (List.length (Item.refs d))).
  { unfold tr, images. rewrite rowSpan_app, rowSpan_images. reflexivity. }
  rewrite Hlen.
  destruct (Z.ltb_spec (1 + Z.of_nat (List.length (Item.refs d)))
              (1 + columns));
    unfold insertCell; rewrite !rowSpan_app, Hspan; unfold rowSpan;
    cbn [fold_right colSpan]; lia.
Qed.

Lemma columnsOf_bound (allShields : list Item.t) (d : Item.t) :
  In d allShields ->
  Z.of_nat (List.length (Item.refs d)) <= columnsOf allShields.
Proof.
  unfold columnsOf. induction allShields as [|e l IH]; [intros []|].
  cbn [map fold_right]. intros [->|Hin]; [lia|].
  specialize (IH Hin). lia.
Qed.

(** The outer loop for any column count that bounds every row. *)
Lemma render_loop (columns : Z) (allShields : list Item.t) :
  forall (table : list (list Cell)) (progress : Z),
    (forall d, In d allShields ->
               Z.of_nat (List.length (Item.refs d)) <= columns) ->
    Forall (fun tr => rowSpan tr = columns + 2) table ->
    let result :=
      fold_left
        (fun '(table, progress) d =>
           let '(tr, progress) := renderRow columns d progress in
           ((table ++ [tr])%list, progress))
        allShields (table, progress) in
    Forall (fun tr => rowSpan tr = columns + 2) (fst result)
    /\ List.length (fst result)
       = (List.length table + List.length allShields)%nat
    /\ snd result = progress + progressMax allShields.
Proof.
  cbv zeta. unfold progressMax.
  induction allShields as [|d l IH]; intros table progress Hb Ht.
  - cbn. split; [assumption|]. split; lia.
  - cbn [fold_left flat_map].
    destruct (@renderRow_span columns d progress (Hb d (or_introl eq_refl)))
      as [Hspan Hprog].
    destruct (renderRow columns d progress) as [tr p]. cbn [fst snd] in *.
    destruct (IH (table ++ [tr])%list p) as (F & L & P).
    + intros e He. apply Hb. right. exact He.
    + apply Forall_app. split; [assumption|].
      constructor; [assumption | constructor].
    + split; [exact F|]. split.
      * rewrite L, length_app. cbn [List.length]. lia.
      * rewrite P, Hprog, length_app. lia.
Qed.

(** X17.  The table gets one row per entry, and every row takes up the
    same number of columns: the largest number of refs of any entry,
    plus 2 (the network cell and the rate cell); the gap cell makes up
    for the refs a row lacks. *)
Theorem renderShields_rows (allShields : list Item.t) (progress : Z) :
  let table := fst (renderShields allShields progress) in
  List.length table = List.length allShields
  /\ Forall (fun tr => rowSpan tr = columnsOf allShields + 2) table.
Proof.
  intros table. subst table. unfold renderShields.
  destruct (@render_loop (columnsOf allShields) allShields [] progress)
    as (F & L & _).
  - intros d. apply columnsOf_bound.
  - constructor.
  - split; [exact L | exact F].
Qed.

(** X18.  Rendering advances the progress value by one per ref, in all
    by the total number of refs, which is the value set as the
    progress maximum. *)
Theorem renderShields_progress (allShields : list Item.t) (progress : Z) :
  snd (renderShields allShields progress)
  = progress + progressMax allShields
  /\ 0 <= progressMax allShields.
Proof.
  split; [|unfold progressMax; lia]. unfold renderShields.
  destruct (@render_loop (columnsOf allShields) allShields [] progress)
    as (_ & _ & P).
  - intros d. apply columnsOf_bound.
  - constructor.
  - exact P.
Qed.

Lemma columnsOf_app (l1 l2 : list Item.t) :
  columnsOf (l1 ++ l2) = Z.max (columnsOf l1) (columnsOf l2).
Proof.
  unfold columnsOf. induction l1 as [|d l1 IH]; cbn [app map fold_right].
  - assert (0 <= fold_right Z.max 0
                   (map (fun d => Z.of_nat (List.length (Item.refs d))) l2)).
    { induction l2 as [|e l2 IH2]; cbn [map fold_right]; lia. }
    lia.
  - rewrite IH. lia.
Qed.

Lemma columnsOf_common (networks refs : list string) :
  columnsOf (map (fun network => {| Item.network := network;
                                    Item.refs := refs |}) networks)
  = match networks with
    | [] => 0
    | _ :: _ => Z.of_nat (List.length refs)
    end.
Proof.
  unfold columnsOf. induction networks as [|n l IH]; [reflexivity|].
  cbn [map fold_right Item.refs]. rewrite IH. destruct l; lia.
Qed.

Lemma refs_common (networks refs : list string) :
  List.length (flat_map Item.refs
                 (map (fun network => {| Item.network := network;
                                         Item.refs := refs |}) networks))
  = (List.length networks * List.length refs)%nat.
Proof.
  induction networks as [|n l IH]; [reflexivity|].
  cbn [map flat_map Item.refs List.length]. rewrite length_app, IH. lia.
Qed.

(** X19.  For any [networks] and [refs], the page has one row per network
    and five more; every row takes up [max 6 (length refs) + 2] columns
    (just 8 when there is no network), and the progress value ends
    [length networks * length refs + 15] above where it started. *)
Theorem renderAllShields_page (networks refs : list string) (progress : Z) :
  let columns :=
    Z.max 6 (match networks with
             | [] => 0
             | _ :: _ => Z.of_nat (List.length refs)
             end) in
  let table := fst (renderAllShields networks refs progress) in
  List.length table = (List.length networks + 5)%nat
  /\ Forall (fun tr => rowSpan tr = columns + 2) table
  /\ snd (renderAllShields networks refs progress)
     = progress
       + Z.of_nat (List.length networks) * Z.of_nat (List.length refs) + 15.
Proof.
  intros columns table. subst columns table. unfold renderAllShields.
  set (allShields := iterShields networks refs).
  assert (C : columnsOf allShields
              = Z.max 6 (match networks with
                         | [] => 0
                         | _ :: _ => Z.of_nat (List.length refs)
                         end)).
  { unfold allShields, iterShields.
    rewrite columnsOf_app, columnsOf_common. unfold columnsOf at 1.
    cbn [map fold_right Item.refs List.length]. lia. }
  assert (P : progressMax allShields
              = Z.of_nat (List.length networks) * Z.of_nat (List.length refs)
                + 15).
  { unfold progressMax, allShields, iterShields.
    rewrite flat_map_app, length_app, refs_common.
    cbn [flat_map Item.refs List.length app]. lia. }
  unfold renderShields.
  destruct (@render_loop (columnsOf allShields) allShields [] progress)
    as (F & L & Pr).
  - intros d. apply columnsOf_bound.
  - constructor.
  - split; [|split].
    + rewrite L. unfold allShields, iterShields.
      rewrite length_app, length_map. cbn [List.length]. lia.
    + eapply Forall_impl; [|exact F].
      intros tr Htr. cbv beta in Htr. rewrite Htr, C. reflexivity.
    + rewrite Pr, P. lia.
Qed.

Lemma joined_injective (network1 : string) :
  forall network2 ref1 ref2 : string,
    noEquals network1 = true -> noEquals network2 = true ->
    (network1 ++ "=" ++ ref1)%string = (network2 ++ "=" ++ ref2)%string ->
    network1 = network2 /\ ref1 = ref2.
Proof.
  induction network1 as [|c n1 IH]; intros [|c2 n2] ref1 ref2 H1 H2 E.
  - cbn in E. injection E as E. now split.
  - cbn in E, H2. injection E as Ec E. subst c2. discriminate H2.
  - cbn in E, H1. injection E as Ec E. subst c. discriminate H1.
  - cbn in E, H1, H2. injection E as Ec E. subst c2.
    apply andb_prop in H1, H2. destruct H1 as [_ H1], H2 as [_ H2].
    destruct (IH n2 ref1 ref2 H1 H2 E) as [-> ->]. now split.
Qed.

(** X16.  The image id tells network and ref apart as long as no network
    contains [=]: two ids that are equal then come from the same
    network and the same ref. *)
Theorem shield_id_injective (network1 ref1 network2 ref2 : string) :
  noEquals network1 = true -> noEquals network2 = true ->
  shield_id network1 ref1 = shield_id network2 ref2 ->
  network1 = network2 /\ ref1 = ref2.
Proof.
  intros H1 H2 E. unfold shield_id in E. cbn [append] in E.
  injection E as E. now apply joined_injective.
Qed.

End TestPage.

(** ** The further statements on the sample environment *)

Section MoreOnSample.

Import ShieldTest.

Local Open Scope R_scope.
Local Open Scope string_scope.

Local Abbreviation gfx := (Sample.gfx R).

Lemma sample_reference_pos : 0 < fontSizeThreshold (GfxModule := gfx).
Proof. cbv [fontSizeThreshold Sample.gfx]. real_ops. lra. Qed.

Lemma sample_ceiling : 0 <= 14 * PXR (Gfx := gfx).
Proof. cbv [PXR getPixelRatio Sample.gfx]. real_ops. lra. Qed.

Lemma sample_available :
  availableBounds (Gfx := gfx) emptyPadding {| width := 20; height := 20 |}
  = {| height := 20; width := 20 |}.
Proof.
  cbv [availableBounds emptyPadding top bottom left right scaledOrZero
       width height].
  real_ops. f_equal; lra.
Qed.

Lemma sample_interior :
  interior (Gfx := gfx) emptyPadding {| width := 20; height := 20 |}
  = {| height := 20; width := 20 |}.
Proof. rewrite <- availableBounds_interior. exact sample_available. Qed.

Lemma widthOfText_bounds_sample :
  12 * ((INR 2 - 1) / 12 + INR 2 / 3) <= widthOfText "95" 12.
Proof.
  destruct (@widthOfText_bounds "95" 12) as [Lo _]; [lra | exact Lo].
Defined.

Lemma rectTextConstraint_fits_sample :
  scale (rectTextConstraint {| width := 10; height := 5 |}
                            {| width := 4; height := 2 |}) * 4 <= 10.
Proof.
  destruct (@rectTextConstraint_fits {| width := 10; height := 5 |}
                                     {| width := 4; height := 2 |})
    as [W _]; cbn [width height] in *; try lra.
Defined.

Lemma ellipseTextConstraint_corner_sample :
  ((scale (ellipseTextConstraint {| width := 10; height := 5 |}
                                 {| width := 4; height := 2 |}) * 4 / 2)
   / (10 / 2)) ^ 2
  + ((scale (ellipseTextConstraint {| width := 10; height := 5 |}
                                   {| width := 4; height := 2 |}) * 2 / 2)
     / (5 / 2)) ^ 2 = 1.
Proof.
  destruct (@ellipseTextConstraint_corner {| width := 10; height := 5 |}
                                          {| width := 4; height := 2 |})
    as [C _]; cbn [width height] in *; try lra.
Defined.

Lemma solver_ordering_sample :
  scale (ellipseTextConstraint {| width := 10; height := 5 |}
                               {| width := 4; height := 2 |})
  <= scale (rectTextConstraint {| width := 10; height := 5 |}
                               {| width := 4; height := 2 |}).
Proof.
  destruct (@solver_ordering {| width := 10; height := 5 |}
                             {| width := 4; height := 2 |})
    as [O _]; cbn [width height] in *; try lra.
Defined.

Lemma layoutShieldText_reference_free_sample :
  fontPx (layoutShieldText (Gfx := gfx) "5" emptyPadding
            {| width := 20; height := 20 |} rectTextConstraint 14)
  = Rmin (14 * PXR (Gfx := gfx))
      (Rmin (20 / widthOfText "5" 1) (20 / emHeightForFontSize 1)).
Proof.
  rewrite (layoutShieldText_reference_free (Gfx := gfx) "5" emptyPadding
             {| width := 20; height := 20 |} 14 sample_reference_pos).
  rewrite sample_interior. reflexivity.
Defined.

Lemma layoutShieldText_rect_fits_sample :
  widthOfText "5"
    (fontPx (layoutShieldText (Gfx := gfx) "5" emptyPadding
               {| width := 20; height := 20 |} rectTextConstraint 14))
  <= 20.
Proof.
  destruct (@layoutShieldText_rect_fits gfx "5" emptyPadding
              {| width := 20; height := 20 |} 14 sample_reference_pos)
    as [W _]; [discriminate|].
  rewrite sample_interior in W. exact W.
Defined.

Lemma layoutShieldText_ellipse_fits_sample :
  0 <= fontPx (layoutShieldText (Gfx := gfx) "5" emptyPadding
                 {| width := 20; height := 20 |} ellipseTextConstraint 14).
Proof.
  destruct (@layoutShieldText_ellipse_fits gfx "5" emptyPadding
              {| width := 20; height := 20 |} 14 sample_reference_pos)
    as [P _]; try rewrite sample_interior; cbn [width height];
    first [discriminate | lra | exact sample_ceiling | exact P].
Defined.

Lemma layoutShieldText_grows_with_bounds_sample :
  fontPx (layoutShieldText (Gfx := gfx) "5" emptyPadding
            {| width := 20; height := 20 |} rectTextConstraint 14)
  <= fontPx (layoutShieldText (Gfx := gfx) "5" emptyPadding
               {| width := 30; height := 30 |} rectTextConstraint 14).
Proof.
  apply (@layoutShieldText_grows_with_bounds gfx "5" emptyPadding
           {| width := 20; height := 20 |} {| width := 30; height := 30 |}
           14 sample_reference_pos);
    first [discriminate | cbn [width height]; lra].
Defined.

Lemma banner_text_fits_sample :
  exists size : R,
    widthOfText "TRUCK" size <= 40 /\ size <= 14 * PXR (Gfx := gfx).
Proof.
  destruct (@banner_text_fits gfx (Sample.shieldDef R)
              (getGfxContext (GfxModule := gfx) {| width := 40; height := 28 |})
              "TRUCK" 1 sample_reference_pos)
    as (size & during & x & y & _ & _ & W & _ & S); [discriminate|].
  exists size. split; [exact W | exact S].
Defined.

Lemma shield_id_injective_sample :
  "US:I"%string = "US:I"%string /\ "95"%string = "95"%string.
Proof.
  exact (@shield_id_injective "US:I" "95" "US:I" "95"
           eq_refl eq_refl eq_refl).
Defined.

(** Without the restriction two ids can coincide. *)
Example shield_id_collision :
  shield_id "a=b" "c" = shield_id "a" "b=c".
Proof. reflexivity. Qed.

(** A page of one network with two refs: the rows short of six refs get
    a gap cell, and every row takes up 8 columns. *)
Example page_of_one_network :
  map (map colSpan) (fst (renderAllShields ["US:I"] ["5"; "95"] 0))
  = [[1; 1; 1; 4; 1]; [1; 1; 1; 1; 1; 1; 1; 1]; [1; 1; 1; 1; 3; 1];
     [1; 1; 5; 1]; [1; 1; 1; 1; 1; 2; 1]; [1; 1; 5; 1]]%Z
  /\ snd (renderAllShields ["US:I"] ["5"; "95"] 0) = 17%Z
  /\ map content (hd [] (fst (renderAllShields ["US:I"] ["5"; "95"] 0)))
     = [Text "US:I"; Img (shield_id "US:I" "5"); Img (shield_id "US:I" "95");
        Nothing; Rate].
Proof. repeat split; vm_compute; reflexivity. Qed.

End MoreOnSample.

(** ** Properties on binary64

    The operations of [PrimFloat] are specified by the IEEE model of
    [SpecFloat]: the facts below are read off that specification. *)

Section Binary64Model.

Import PrimFloat SpecFloat FloatOps FloatAxioms.

Local Open Scope float_scope.

Lemma SFltb_nan_r (s : spec_float) : SFltb s S754_nan = false.
Proof. destruct s; reflexivity. Qed.

Lemma SFltb_irrefl (s : spec_float) : SFltb s s = false.
Proof.
  destruct s as [sg|sg| |sg m e]; try reflexivity;
    try (destruct sg; reflexivity).
  unfold SFltb, SFcompare.
  destruct sg; rewrite Z.compare_refl, Pos.compare_cont_refl; reflexivity.
Qed.

Lemma ltb_nan_r (x : float) : (x <? nan) = false.
Proof. rewrite ltb_spec. apply SFltb_nan_r. Qed.

Lemma ltb_irrefl (x : float) : (x <? x) = false.
Proof. rewrite ltb_spec. apply SFltb_irrefl. Qed.

(** [Math.min] is never above its first argument. *)
Lemma min_not_above_l (x y : float) : (x <? Binary64.min x y) = false.
Proof.
  unfold Binary64.min.
  destruct (Binary64.isNaN x || Binary64.isNaN y); [apply ltb_nan_r|].
  destruct (x <? y) eqn:Hxy; [apply ltb_irrefl|].
  destruct (y <? x); [exact Hxy|].
  destruct (Binary64.isNegative x); [apply ltb_irrefl | exact Hxy].
Qed.

(** Rounding keeps the sign. *)
Lemma round_aux_sign (sign : bool) (m e : Z) (l : location) :
  signIs sign (binary_round_aux prec emax sign m e l) = true.
Proof.
  unfold binary_round_aux.
  destruct (shr_fexp prec emax m e l) as [mrs' e'].
  destruct (shr_fexp prec emax _ e' loc_Exact) as [mrs'' e''].
  destruct (shr_m mrs''); cbn [signIs]; try apply eqb_reflx; [|reflexivity].
  destruct (Z.leb e'' (emax - prec)); cbn [signIs]; apply eqb_reflx.
Qed.

(** The sign of a product or a quotient is the exclusive or of the signs
    of its operands, unless it is NaN. *)
Lemma SFmul_sign (sx sy : bool) (x y : spec_float) :
  signIs sx x = true -> signIs sy y = true ->
  signIs (xorb sx sy) (SF64mul x y) = true.
Proof.
  destruct x as [bx|bx| |bx mx ex], y as [b_y|b_y| |b_y my ey];
    cbn [signIs]; intros Hx Hy; try reflexivity;
    apply eqb_prop in Hx, Hy; subst bx b_y;
    try apply eqb_reflx.
  apply round_aux_sign.
Qed.

Lemma SFdiv_sign (sx sy : bool) (x y : spec_float) :
  signIs sx x = true -> signIs sy y = true ->
  signIs (xorb sx sy) (SF64div x y) = true.
Proof.
  destruct x as [bx|bx| |bx mx ex], y as [b_y|b_y| |b_y my ey];
    cbn [signIs]; intros Hx Hy; try reflexivity;
    apply eqb_prop in Hx, Hy; subst bx b_y;
    try apply eqb_reflx.
  unfold SF64div, SFdiv.
  destruct (SFdiv_core_binary prec emax (Z.pos mx) ex (Z.pos my) ey)
    as [[mz ez] lz].
  apply round_aux_sign.
Qed.

(** A sum or a square root of operands with the sign bit clear has it
    clear, unless it is NaN. *)
Lemma SFadd_sign (x y : spec_float) :
  signIs false x = true -> signIs false y = true ->
  signIs false (SF64add x y) = true.
Proof.
  destruct x as [[]|[]| |[] mx ex], y as [[]|[]| |[] my ey];
    try discriminate; intros _ _; try reflexivity.
  unfold SF64add, SFadd, cond_Zopp. cbn [Z.add binary_normalize].
  unfold binary_round.
  destruct (shl_align _ _ _) as [mz ez] at 1.
  apply round_aux_sign.
Qed.

Lemma SFsqrt_sign (x : spec_float) :
  signIs false x = true -> signIs false (SF64sqrt x) = true.
Proof.
  destruct x as [[]|[]| |[] mx ex]; try discriminate; intros _;
    try reflexivity.
  unfold SF64sqrt, SFsqrt.
  destruct (SFsqrt_core_binary prec emax (Z.pos mx) ex) as [[mz ez] lz].
  apply round_aux_sign.
Qed.

(** A double above 0 has its sign bit clear. *)
Lemma positive_sign (x : float) :
  (0 <? x) = true -> signIs false (Prim2SF x) = true.
Proof.
  rewrite ltb_spec. change (Prim2SF 0) with (S754_zero false).
  destruct (Prim2SF x) as [[]|[]| |[] m e]; try discriminate; reflexivity.
Qed.

(** A double that is NaN or has its sign bit clear is NaN or at least 0,
    and in either case not below 0. *)
Lemma sign_clear (x : float) :
  signIs false (Prim2SF x) = true ->
  Binary64.isNaN x || (0 <=? x) = true /\ (x <? 0) = false.
Proof.
  unfold Binary64.isNaN. rewrite eqb_spec, leb_spec, ltb_spec.
  change (Prim2SF 0) with (S754_zero false).
  destruct (Prim2SF x) as [[]|[]| |[] m e]; try discriminate;
    intros _; split; try reflexivity; apply orb_true_r.
Qed.

(** A double that is NaN or has its sign bit set is not above 0. *)
Lemma sign_set (x : float) :
  signIs true (Prim2SF x) = true -> (0 <? x) = false.
Proof.
  rewrite ltb_spec. change (Prim2SF 0) with (S754_zero false).
  destruct (Prim2SF x) as [[]|[]| |[] m e]; try discriminate; reflexivity.
Qed.

Lemma min_sign (x y : float) :
  signIs false (Prim2SF x) = true -> signIs false (Prim2SF y) = true ->
  signIs false (Prim2SF (Binary64.min x y)) = true.
Proof.
  intros Hx Hy. unfold Binary64.min.
  destruct (Binary64.isNaN x || Binary64.isNaN y); [reflexivity|].
  destruct (x <? y); [exact Hx|].
  destruct (y <? x); [exact Hy|].
  destruct (Binary64.isNegative x); assumption.
Qed.

(** *** Shape constraint solver *)

Lemma ellipseScale_sign (spaceBounds textBounds : Bounds float) :
  signIs false (Prim2SF (width spaceBounds)) = true ->
  signIs false (Prim2SF (height spaceBounds)) = true ->
  signIs false (Prim2SF (width textBounds)) = true ->
  signIs false (Prim2SF (height textBounds)) = true ->
  signIs false (Prim2SF (ellipseScale spaceBounds textBounds)) = true.
Proof.
  intros A B X Y. unfold ellipseScale. cbn [add mul div Math_sqrt FloatNumber].
  rewrite div_spec. apply (SFdiv_sign false false).
  - rewrite mul_spec. apply (SFmul_sign false false); assumption.
  - rewrite sqrt_spec. apply SFsqrt_sign.
    rewrite add_spec. apply SFadd_sign;
      rewrite !mul_spec;
      repeat apply (SFmul_sign false false); assumption.
Qed.

(** On a space and a text of positive width and height the rectangle,
    ellipse and south-half-ellipse scales are NaN or have the sign bit
    clear. *)
Lemma solver_signs (spaceBounds textBounds : Bounds float) :
  (0 <? width spaceBounds) = true -> (0 <? height spaceBounds) = true ->
  (0 <? width textBounds) = true -> (0 <? height textBounds) = true ->
  signIs false (Prim2SF (scale (rectTextConstraint spaceBounds textBounds)))
  = true
  /\ signIs false
       (Prim2SF (scale (ellipseTextConstraint spaceBounds textBounds))) = true
  /\ signIs false
       (Prim2SF (scale (southHalfellipseTextConstraint spaceBounds
                          textBounds))) = true.
Proof.
  intros Ha Hb Hx Hy.
  apply positive_sign in Ha, Hb, Hx, Hy.
  split; [|split].
  - unfold rectTextConstraint. cbn [scale Math_min div FloatNumber].
    apply min_sign; rewrite div_spec; apply (SFdiv_sign false false);
      assumption.
  - apply ellipseScale_sign; assumption.
  - unfold southHalfellipseTextConstraint. cbn [scale].
    apply ellipseScale_sign; cbn [width height]; try assumption.
    cbn [div FloatNumber]. rewrite div_spec.
    apply (SFdiv_sign false false); [assumption | reflexivity].
Qed.

(** *** Text metrics estimator *)

(** The estimate of the empty text is the font size times the double
    nearest to -1/12. *)
Lemma empty_estimate (fontSize : float) :
  widthOfText "" fontSize = fontSize * lit (-1 # 12).
Proof.
  unfold widthOfText. cbn [mul FloatNumber]. f_equal.
  vm_compute. reflexivity.
Qed.

Lemma empty_estimate_sign (fontSize : float) :
  signIs false (Prim2SF fontSize) = true ->
  signIs true (Prim2SF (widthOfText "" fontSize)) = true.
Proof.
  intros Hf. rewrite empty_estimate, mul_spec.
  apply (SFmul_sign false true); [assumption | vm_compute; reflexivity].
Qed.

(** *** Values that are not above 0 *)

(** A double below one that is not above 0 is not above 0 either; and of
    two doubles, neither of them NaN, the second is not above 0 once the
    first is neither above 0 nor below the second. *)
Lemma SFltb_below (x y : spec_float) :
  SFltb (S754_zero false) y = false -> SFltb x y = true ->
  SFltb (S754_zero false) x = false.
Proof.
  destruct x as [[]|[]| |[] mx ex], y as [[]|[]| |[] my ey];
    try reflexivity; try discriminate.
Qed.

Lemma SFltb_not_below (x y : spec_float) :
  SFltb (S754_zero false) x = false -> SFeqb x x = true ->
  SFltb x y = false -> SFltb (S754_zero false) y = false.
Proof.
  destruct x as [[]|[]| |[] mx ex], y as [[]|[]| |[] my ey];
    try reflexivity; try discriminate.
Qed.

Lemma isNaN_false (x y : float) :
  Binary64.isNaN x || Binary64.isNaN y = false ->
  SFeqb (Prim2SF x) (Prim2SF x) = true /\ SFeqb (Prim2SF y) (Prim2SF y) = true.
Proof.
  unfold Binary64.isNaN. rewrite !eqb_spec. intros H.
  apply orb_false_elim in H. destruct H as [Hx Hy].
  apply negb_false_iff in Hx, Hy. split; assumption.
Qed.

(** [Math.min] of two doubles is not above 0 when one of them is not. *)
Lemma min_not_above_zero_l (x y : float) :
  (0 <? x) = false -> (0 <? Binary64.min x y) = false.
Proof.
  intros Hx. unfold Binary64.min.
  destruct (Binary64.isNaN x || Binary64.isNaN y) eqn:HN; [reflexivity|].
  apply isNaN_false in HN. destruct HN as [Nx Ny].
  destruct (x <? y) eqn:Hxy; [exact Hx|].
  destruct (y <? x) eqn:Hyx;
    [|destruct (Binary64.isNegative x); [exact Hx|]];
    rewrite ltb_spec in *; change (Prim2SF 0) with (S754_zero false) in *.
  - apply (SFltb_below _ _ Hx Hyx).
  - apply (SFltb_not_below _ _ Hx Nx Hxy).
Qed.

Lemma min_not_above_zero_r (x y : float) :
  (0 <? y) = false -> (0 <? Binary64.min x y) = false.
Proof.
  intros Hy. unfold Binary64.min.
  destruct (Binary64.isNaN x || Binary64.isNaN y) eqn:HN; [reflexivity|].
  apply isNaN_false in HN. destruct HN as [Nx Ny].
  destruct (x <? y) eqn:Hxy;
    [|destruct (y <? x) eqn:Hyx; [exact Hy|];
      destruct (Binary64.isNegative x); [|exact Hy]];
    rewrite ltb_spec in *; change (Prim2SF 0) with (S754_zero false) in *.
  - apply (SFltb_below _ _ Hy Hxy).
  - apply (SFltb_not_below _ _ Hy Ny Hyx).
Qed.

(** The product of a double above 0 and one not above 0 is not above 0. *)
Lemma mul_not_above_zero (x y : float) :
  (0 <? x) = true -> (0 <? y) = false -> (0 <? x * y) = false.
Proof.
  rewrite !ltb_spec, mul_spec. change (Prim2SF 0) with (S754_zero false).
  destruct (Prim2SF x) as [[]|[]| |[] mx ex], (Prim2SF y) as [[]|[]| |[] my ey];
    try reflexivity; try discriminate; intros _ _.
  pose proof (round_aux_sign true (Z.pos mx * Z.pos my) (ex + ey) loc_Exact)
    as S.
  unfold SF64mul, SFmul. cbn [xorb].
  destruct (binary_round_aux prec emax true _ _ _) as [[]|[]| |[] m e];
    try reflexivity; discriminate S.
Qed.

(** *** Layout engine *)

(** On binary64, with a reference size above 0 and a width above 0 left
    by the padding, the empty text is laid out under the rectangle
    constraint at a font size that is not above 0. *)
Lemma empty_layout_not_above_zero (G : GfxModule float)
  (padding : Padding float) (bounds : Bounds float) (maxFontSize : float) :
  (0 <? fontSizeThreshold) = true ->
  (0 <? width (paddedBounds padding bounds)) = true ->
  (0 <? fontPx (layoutShieldText "" padding bounds rectTextConstraint
                  maxFontSize)) = false.
Proof.
  intros HT HW.
  change (fontPx (layoutShieldText "" padding bounds rectTextConstraint
                    maxFontSize))
    with (Binary64.min (maxFontSize * PXR)
            (fontSizeThreshold *
             Binary64.min
               (width (paddedBounds padding bounds)
                / widthOfText "" fontSizeThreshold)
               (height (paddedBounds padding bounds)
                / emHeightForFontSize fontSizeThreshold))).
  apply min_not_above_zero_r, mul_not_above_zero; [exact HT|].
  apply min_not_above_zero_l, sign_set.
  rewrite div_spec. apply (SFdiv_sign false true).
  - apply positive_sign, HW.
  - apply empty_estimate_sign, positive_sign, HT.
Qed.

End Binary64Model.

(** ** Statements that span the number models *)

Section AcrossModels.

Local Open Scope string_scope.
Local Open Scope R_scope.

(** C2.  In every number model, binary64 included, the font size of the
    layout is [Math.min] of [maxFontSize * PXR] and the reference size
    times the scale that the constraint function returns on the padded
    bounds and the estimated text bounds.  The padded bounds are the
    bounds less the four sides of the padding, each scaled by the pixel
    ratio, a side counting as 0 when it is missing or when its product
    with the pixel ratio is 0 or NaN; the estimated text bounds are the
    estimated width and em height at the reference size.  Over the reals
    the padded bounds are the bounds less the scaled sides as they are,
    and the font size is at most [maxFontSize * PXR].  On binary64 the
    font size is never above [maxFontSize * PXR]. *)
Theorem layoutShieldText_font_size :
  (forall (num : Type) (N : JSNumber num) (G : GfxModule num)
          (text : string) (padding : Padding num) (bounds : Bounds num)
          (textLayoutFunc : Bounds num -> Bounds num -> TextConstraint num)
          (maxFontSize : num),
     fontPx (layoutShieldText text padding bounds textLayoutFunc maxFontSize)
     = Math_min (maxFontSize * PXR)%js
         (fontSizeThreshold *
          scale (textLayoutFunc
                   (paddedBounds padding bounds)
                   {| height := emHeightForFontSize fontSizeThreshold;
                      width := widthOfText text fontSizeThreshold |}))%js)
  /\ (forall (G : GfxModule R)
             (text : string) (padding : Padding R) (bounds : Bounds R)
             (textLayoutFunc : Bounds R -> Bounds R -> TextConstraint R)
             (maxFontSize : R),
        fontPx (layoutShieldText text padding bounds textLayoutFunc
                  maxFontSize)
        = Rmin (maxFontSize * PXR)
            (fontSizeThreshold *
             scale (textLayoutFunc
                      (interior padding bounds)
                      {| height := emHeightForFontSize fontSizeThreshold;
                         width := widthOfText text fontSizeThreshold |}))
        /\ fontPx (layoutShieldText text padding bounds textLayoutFunc
                     maxFontSize)
           <= maxFontSize * PXR)
  /\ (forall (G : GfxModule PrimFloat.float)
             (text : string) (padding : Padding PrimFloat.float)
             (bounds : Bounds PrimFloat.float)
             (textLayoutFunc : Bounds PrimFloat.float ->
                               Bounds PrimFloat.float ->
                               TextConstraint PrimFloat.float)
             (maxFontSize : PrimFloat.float),
        PrimFloat.ltb (maxFontSize * PXR)%js
          (fontPx (layoutShieldText text padding bounds textLayoutFunc
                     maxFontSize))
        = false).
Proof.
  split; [|split].
  - intros num N G text padding bounds textLayoutFunc maxFontSize.
    reflexivity.
  - intros G text padding bounds textLayoutFunc maxFontSize.
    rewrite layoutShieldText_fontPx, availableBounds_interior.
    split; [reflexivity | apply Rmin_l].
  - intros G text padding bounds textLayoutFunc maxFontSize.
    rewrite layoutShieldText_fontPx. apply min_not_above_l.
Qed.

(** C4, as the code has it.  Over the reals, on a space and a text of
    positive width and height the rectangle, ellipse and
    south-half-ellipse constraints return a positive scale; the
    rounded-rectangle constraint does so exactly when
    [radius * (2 - sqrt 2)] is below both extents of the space, which
    holds for every radius from 0 to half the shorter side.  On binary64,
    on a space and a text of width and height above 0, the rectangle,
    ellipse and south-half-ellipse scales are never below 0: each is NaN
    or at least 0. *)
Theorem constraint_scale_positive :
  (forall spaceBounds textBounds : Bounds R,
     0 < width spaceBounds -> 0 < height spaceBounds ->
     0 < width textBounds -> 0 < height textBounds ->
     0 < scale (rectTextConstraint spaceBounds textBounds)
     /\ 0 < scale (ellipseTextConstraint spaceBounds textBounds)
     /\ 0 < scale (southHalfellipseTextConstraint spaceBounds textBounds)
     /\ (forall radius : R,
           0 < scale (roundedRectTextConstraint spaceBounds textBounds radius)
           <-> radius * (2 - sqrt 2)
               < Rmin (width spaceBounds) (height spaceBounds))
     /\ (forall radius : R,
           0 <= radius <= Rmin (width spaceBounds) (height spaceBounds) / 2 ->
           0 < scale (roundedRectTextConstraint spaceBounds textBounds
                        radius)))
  /\ (forall spaceBounds textBounds : Bounds PrimFloat.float,
        let aboveZero (x : PrimFloat.float) :=
          PrimFloat.ltb PrimFloat.zero x = true in
        let notBelowZero (x : PrimFloat.float) :=
          (Binary64.isNaN x || PrimFloat.leb PrimFloat.zero x)%bool = true
          /\ PrimFloat.ltb x PrimFloat.zero = false in
        aboveZero (width spaceBounds) -> aboveZero (height spaceBounds) ->
        aboveZero (width textBounds) -> aboveZero (height textBounds) ->
        notBelowZero (scale (rectTextConstraint spaceBounds textBounds))
        /\ notBelowZero (scale (ellipseTextConstraint spaceBounds textBounds))
        /\ notBelowZero
             (scale (southHalfellipseTextConstraint spaceBounds textBounds))).
Proof.
  split.
  - apply constraint_scale_positive_real.
  - intros spaceBounds textBounds aboveZero notBelowZero Ha Hb Hx Hy.
    destruct (solver_signs spaceBounds textBounds Ha Hb Hx Hy)
      as (Rect & Ellipse & South).
    repeat split; apply sign_clear; assumption.
Qed.

Lemma constraint_scale_positive_sample :
  (0 < scale (rectTextConstraint {| width := 10; height := 5 |}
                                 {| width := 4; height := 2 |})
   /\ 0 < scale (ellipseTextConstraint {| width := 10; height := 5 |}
                                       {| width := 4; height := 2 |})
   /\ 0 < scale (southHalfellipseTextConstraint
                   {| width := 10; height := 5 |}
                   {| width := 4; height := 2 |})
   /\ 0 < scale (roundedRectTextConstraint {| width := 10; height := 5 |}
                                           {| width := 4; height := 2 |} 2))
  /\ PrimFloat.ltb
       (scale (ellipseTextConstraint
                 {| width := lit 10; height := lit 5 |}
                 {| width := lit 4; height := lit 2 |}))
       PrimFloat.zero = false.
Proof.
  destruct constraint_scale_positive as [Real Double]. split.
  - destruct (Real {| width := 10; height := 5 |}
                   {| width := 4; height := 2 |})
      as (Rect & Ellipse & South & _ & Rounded); cbn [width height]; try lra.
    repeat split; try assumption.
    apply Rounded, sample_radius.
  - pose proof (Double {| width := lit 10; height := lit 5 |}
                       {| width := lit 4; height := lit 2 |}) as D.
    cbv zeta in D.
    destruct D as (_ & Ellipse & _);
      [vm_compute; reflexivity .. | exact (proj2 Ellipse)].
Defined.

(** C10, as the code has it.  Over the reals: on the empty string the
    estimate at a positive font size is [- fontSize / 12], below zero;
    and when the reference size is positive and the padding, scaled by
    the pixel ratio, leaves a positive width of the bounds, the layout of
    the empty text under the rectangle constraint has a negative font
    size.  On binary64: the estimate is the font size times the double
    nearest to -1/12, and at a font size above 0 it is not above 0; and
    when the reference size and the width left by the padding are above
    0, the font size of that layout is not above 0. *)
Theorem empty_text_negative_font_size :
  (forall fontSize : R, 0 < fontSize ->
     widthOfText "" fontSize = - fontSize / 12
     /\ widthOfText "" fontSize < 0)
  /\ (forall (G : GfxModule R) (padding : Padding R) (bounds : Bounds R)
             (maxFontSize : R),
        0 < fontSizeThreshold ->
        0 < width bounds - sideOrZero (left padding) * PXR
            - sideOrZero (right padding) * PXR ->
        fontPx (layoutShieldText "" padding bounds rectTextConstraint
                  maxFontSize) < 0)
  /\ (forall fontSize : PrimFloat.float,
        widthOfText "" fontSize = (fontSize * lit (-1 # 12))%js
        /\ (PrimFloat.ltb PrimFloat.zero fontSize = true ->
            PrimFloat.ltb PrimFloat.zero (widthOfText "" fontSize) = false))
  /\ (forall (G : GfxModule PrimFloat.float) (padding : Padding PrimFloat.float)
             (bounds : Bounds PrimFloat.float) (maxFontSize : PrimFloat.float),
        PrimFloat.ltb PrimFloat.zero fontSizeThreshold = true ->
        PrimFloat.ltb PrimFloat.zero (width (paddedBounds padding bounds))
        = true ->
        PrimFloat.ltb PrimFloat.zero
          (fontPx (layoutShieldText "" padding bounds rectTextConstraint
                     maxFontSize))
        = false).
Proof.
  split; [|split; [|split]].
  - intros fontSize Hf. rewrite widthOfText_empty. split; [reflexivity | lra].
  - intros G. apply empty_text_layout_real.
  - intros fontSize. split; [apply empty_estimate|].
    intros Hf. apply sign_set, empty_estimate_sign, positive_sign, Hf.
  - intros G. apply empty_layout_not_above_zero.
Qed.

Lemma empty_text_negative_font_size_sample :
  widthOfText "" 12 = - 12 / 12
  /\ fontPx (layoutShieldText (Gfx := Sample.gfx R) "" emptyPadding
               {| width := 20; height := 20 |} rectTextConstraint 14) < 0
  /\ PrimFloat.ltb PrimFloat.zero
       (fontPx (layoutShieldText (Gfx := Sample.gfx PrimFloat.float) ""
                  emptyPadding {| width := lit 20; height := lit 20 |}
                  rectTextConstraint (lit 14)))
     = false.
Proof.
  destruct empty_text_negative_font_size as (Width & Layout & _ & Double).
  split; [|split].
  - apply Width. lra.
  - apply Layout; [exact sample_reference_above_zero | exact sample_width_left].
  - apply Double; vm_compute; reflexivity.
Defined.

(** C9, as the code runs.  In every number model [drawShieldHaloText]
    issues one outline draw of the text at the layout's position, under
    the layout's font size, with the shadow color equal to the stroke
    color the context came with and a shadow blur of zero.  When it
    returns the shadow blur is 0, but the shadow color is not reset: the
    [null] assigned to it is no color, so the context keeps the stroke
    color as its shadow color.  On a fresh context, whose stroke color is
    black and whose shadow color is transparent black, the shadow color
    ends as black. *)
Theorem drawShieldHaloText_shadow_kept :
  (forall (num : Type) (N : JSNumber num) (G : GfxModule num)
          (ctx : Context2D num) (text : string) (textLayout : TextLayout num),
     let ctx' := drawShieldHaloText ctx text textLayout in
     shadowColor (state ctx') = strokeStyle (state ctx)
     /\ shadowBlur (state ctx') = lit 0
     /\ (exists during : DrawState num,
           calls ctx' =
             (calls ctx ++
              [{| op := StrokeText; drawnText := text;
                  atX := xBaseline textLayout; atY := yBaseline textLayout;
                  under := during |}])%list
           /\ shadowColor during = strokeStyle (state ctx)
           /\ strokeStyle during = strokeStyle (state ctx)
           /\ shadowBlur during = lit 0
           /\ font during = shieldFont (fontPx textLayout)
           /\ lineWidth during = (lit 2 * PXR)%js
           /\ textAlign during = "center"
           /\ textBaseline during = "alphabetic")
     /\ canvas ctx' = canvas ctx
     /\ strokeStyle (state ctx') = strokeStyle (state ctx)
     /\ fillStyle (state ctx') = fillStyle (state ctx))
  /\ (let gfx := Sample.gfx PrimFloat.float in
      let ctx :=
        getGfxContext (GfxModule := gfx)
          {| width := lit 20; height := lit 20 |} in
      let textLayout :=
        layoutShieldText (Gfx := gfx) "5" emptyPadding
          {| width := lit 20; height := lit 20 |} rectTextConstraint
          (lit 14) in
      let ctx' := drawShieldHaloText (Gfx := gfx) ctx "5" textLayout in
      strokeStyle (state ctx) = "#000000"
      /\ shadowColor (state ctx) = "rgba(0, 0, 0, 0)"
      /\ shadowColor (state ctx') = "#000000"
      /\ shadowColor (state ctx') <> shadowColor (state ctx)).
Proof.
  split.
  - intros num N G ctx text textLayout.
    apply drawShieldHaloText_effect.
  - cbv zeta. repeat split. discriminate.
Qed.

End AcrossModels.

(** ** The same code on binary64

    The definitions run as they stand on IEEE doubles; these are their
    results on the inputs used above. *)

Section OnBinary64.

Import PrimFloat.
Local Open Scope string_scope.
Local Open Scope float_scope.

(** A decimal literal denotes the nearest double, as in the source. *)
#[local] Set Warnings "-inexact-float".

Local Abbreviation gfx := (Sample.gfx PrimFloat.float).

Example ellipse_on_doubles :
  scale (ellipseTextConstraint {| width := 10; height := 5 |}
                               {| width := 4; height := 2 |})
  = 50 / sqrt (100 * 4 + 25 * 16)
  /\ scale (ellipseTextConstraint {| width := 10; height := 5 |}
                                  {| width := 4; height := 2 |})
     = 0x1.c48c6001f0abfp+0.
Proof. split; vm_compute; reflexivity. Qed.

Example widths_on_doubles :
  widthOfText "111" 12 = widthOfText "222" 12
  /\ ltb (widthOfText "111" 12) (widthOfText "WWW" 12) = true
  /\ widthOfText "WWW" 12 = 26
  /\ widthOfText "" 12 = -1.
Proof. repeat split; vm_compute; reflexivity. Qed.

Example solvers_on_doubles :
  scale (rectTextConstraint {| width := 10; height := 5 |}
                            {| width := 4; height := 2 |}) = 2.5
  /\ scale (roundedRectTextConstraint {| width := 10; height := 5 |}
                                      {| width := 4; height := 2 |} 0) = 2.5
  /\ ltb (scale (roundedRectTextConstraint
                   {| width := 10; height := 10 |}
                   {| width := 1; height := 1 |} 20)) 0 = true.
Proof. repeat split; vm_compute; reflexivity. Qed.

Example layouts_on_doubles :
  layoutShieldText (Gfx := gfx) "5" emptyPadding
    {| width := 20; height := 20 |} rectTextConstraint 14
  = {| xBaseline := 10; yBaseline := 15; fontPx := 14 |}
  /\ layoutShieldTextFromDef (Gfx := gfx) "95" None
       {| width := 20; height := 20 |}
     = {| xBaseline := 10; yBaseline := 15; fontPx := 14 |}
  /\ layoutShieldText (Gfx := gfx) "" emptyPadding
       {| width := 20; height := 20 |} rectTextConstraint 14
     = {| xBaseline := 10; yBaseline := -80; fontPx := -240 |}
  /\ fontPx (layoutShieldText (Gfx := gfx) ""
               {| top := None; bottom := None;
                  left := Some 10; right := Some 10 |}
               {| width := 20; height := 20 |} rectTextConstraint 14)
     = -0.
Proof. repeat split; vm_compute; reflexivity. Qed.

Example buckets_on_doubles :
  map (widthOfChar (num := float))
      ["I"; "-"; "0"; "7"; "B"; "R"; "W"; "A"; " "]%char
  = [1 / 3; 1 / 3; 1 / 2.75; 1 / 2.75; 1 / 1.9; 1 / 1.9; 1 / 1.5;
     1 / 2.2; 1 / 2.2].
Proof. vm_compute. reflexivity. Qed.

Example rounding_on_doubles :
  map Binary64.round [2.5; 14.49; -0.2; -2.5; -3.7]
  = [3; 14; -0; -2; -4].
Proof. vm_compute. reflexivity. Qed.

(** One banner word on a canvas 40 wide: the layout for the plate has its
    baseline at 7; plate 0 is drawn at 7 - 1 + 1, plate 1 one plate height
    further. *)
Example banners_on_doubles :
  let ctx := getGfxContext (GfxModule := gfx) {| width := 40; height := 28 |} in
  let drawBanner :=
    drawBannerText (Gfx := gfx) (ShieldDef := Sample.shieldDef float) in
  let drawHalo :=
    drawBannerHaloText (Gfx := gfx) (ShieldDef := Sample.shieldDef float)
      (Color := Sample.color) in
  yBaseline (layoutShieldTextFromDef (Gfx := gfx) "TRUCK" None
               {| width := 40; height := 7 |}) = 7
  /\ map (fun c => (op c, atX c, atY c)) (calls (drawBanner ctx "TRUCK" 0))
     = [(FillText, 20, 7)]
  /\ map (fun c => (op c, atX c, atY c)) (calls (drawBanner ctx "TRUCK" 1))
     = [(FillText, 20, 15)]
  /\ map (fun c => (op c, atX c, atY c, shadowColor (under c)))
         (calls (drawHalo ctx "TRUCK" 1))
     = [(StrokeText, 20, 15, "hsl(30, 44%, 96%)")]
  /\ shadowColor (state (drawHalo ctx "TRUCK" 1)) = "hsl(30, 44%, 96%)".
Proof. repeat split; vm_compute; reflexivity. Qed.

(** *** Where the exact statements fail *)

(** C4, refuted as stated.  Over the reals a radius of 20 on a space of
    10 by 10 leaves the rounded rectangle a negative scale.  On binary64
    the ellipse scale of a 1 by 1 text in a space of 2^720 by 2^720 is
    NaN, the products under the root having overflowed; and the rectangle
    scale of a text of 1e10 by 1e10 in a space of 1e-320 by 1e-320 is 0,
    the quotient having underflowed.  Neither is above 0. *)
Lemma constraint_scale_not_positive :
  (0 <= 20
   /\ scale (roundedRectTextConstraint {| width := 10; height := 10 |}
                                       {| width := 1; height := 1 |} 20) < 0)%R
  /\ ((0 <? 0x1p720) = true /\ (0 <? 1) = true
      /\ Binary64.isNaN
           (scale (ellipseTextConstraint
                     {| width := 0x1p720; height := 0x1p720 |}
                     {| width := 1; height := 1 |})) = true
      /\ (0 <? scale (ellipseTextConstraint
                        {| width := 0x1p720; height := 0x1p720 |}
                        {| width := 1; height := 1 |})) = false)
  /\ ((0 <? 1e-320) = true /\ (0 <? 1e10) = true
      /\ scale (rectTextConstraint
                  {| width := 1e-320; height := 1e-320 |}
                  {| width := 1e10; height := 1e10 |}) = 0
      /\ (0 <? scale (rectTextConstraint
                        {| width := 1e-320; height := 1e-320 |}
                        {| width := 1e10; height := 1e10 |})) = false).
Proof.
  split; [exact roundedRect_scale_negative|].
  repeat split; vm_compute; reflexivity.
Qed.

(** C6, refuted as stated.  At font size 0 every estimate is 0, over the
    reals and on binary64, so "111" and "WWW" agree.  On binary64 they
    also agree at font size 1.7e308, where both products overflow to
    infinity. *)
Lemma widthOfText_digits_meet_W :
  (widthOfText "111" 0 = widthOfText "WWW" 0)%R
  /\ widthOfText "111" 0 = widthOfText "WWW" 0
  /\ widthOfText "111" 1.7e308 = infinity
  /\ widthOfText "WWW" 1.7e308 = infinity
  /\ widthOfText "111" 1.7e308 = widthOfText "WWW" 1.7e308.
Proof.
  split; [exact widthOfText_agree_at_zero|].
  repeat split; vm_compute; reflexivity.
Qed.

(** C7, refuted as stated.  On binary64, with banner plates of height 9.6
    and paddings of 1.2, the banner at index 2 is drawn at
    27.199999999999999 while the one at index 1 plus one plate height is
    27.200000000000003; and with plates of height 8.8, a banner padding
    of 1.1 and a top padding of 0.3, the banner at index 0 is drawn
    -0.79999999999999982 from the computed baseline 8, while
    [- bannerPadding + topPadding] is -0.80000000000000004. *)
Lemma banner_step_rounds :
  let ctx := getGfxContext (GfxModule := gfx) {| width := 40; height := 28 |} in
  let plates : ShieldDefModule float :=
    {| bannerSizeH := 9.6; bannerPadding := 1.2; topPadding := 1.2 |} in
  let uneven : ShieldDefModule float :=
    {| bannerSizeH := 8.8; bannerPadding := 1.1; topPadding := 0.3 |} in
  (drawnBaseline
     (drawBannerText (Gfx := gfx) (ShieldDef := plates) ctx "TRUCK" 2)
   = Some 27.199999999999999
   /\ option_map (fun y => y + bannerSizeH (ShieldDefModule := plates))
        (drawnBaseline
           (drawBannerText (Gfx := gfx) (ShieldDef := plates) ctx "TRUCK" 1))
      = Some 27.200000000000003
   /\ (27.199999999999999 <? 27.200000000000003) = true)
  /\ (yBaseline
        (layoutShieldTextFromDef (Gfx := gfx) "TRUCK" None
           {| width := 40;
              height := bannerSizeH (ShieldDefModule := uneven)
                        - bannerPadding (ShieldDefModule := uneven) |}) = 8
      /\ drawnBaseline
           (drawBannerText (Gfx := gfx) (ShieldDef := uneven) ctx "TRUCK" 0)
         = Some 7.2000000000000002
      /\ 7.2000000000000002 - 8 = -0.79999999999999982
      /\ - bannerPadding (ShieldDefModule := uneven)
         + topPadding (ShieldDefModule := uneven) = -0.80000000000000004
      /\ (-0.80000000000000004 <? -0.79999999999999982) = true).
Proof. cbv zeta. repeat split; vm_compute; reflexivity. Qed.

(** C10, refuted as stated.  Over the reals, with side paddings of 10 on
    bounds of 20 by 20, both positive, no width is left and the empty text
    is laid out at font size 0, which is not negative.  On binary64 the
    estimate of the empty text at font size 14 is -1.1666666666666665,
    not the double -14/12; and at the least font size above 0 it is -0,
    which is not below 0. *)
Lemma empty_text_not_negative :
  (0 < 20
   /\ fontPx (layoutShieldText (Gfx := Sample.gfx R) ""
                {| top := None; bottom := None;
                   left := Some 10; right := Some 10 |}
                {| width := 20; height := 20 |} rectTextConstraint 14) = 0)%R
  /\ (widthOfText "" 14 = -1.1666666666666665
      /\ - 14 / 12 = -1.1666666666666667
      /\ (-1.1666666666666667 <? -1.1666666666666665) = true)
  /\ ((0 <? 0x1p-1074) = true
      /\ widthOfText "" 0x1p-1074 = -0
      /\ (widthOfText "" 0x1p-1074 <? 0) = false).
Proof.
  split; [exact empty_text_font_size_zero|].
  repeat split; vm_compute; reflexivity.
Qed.

End OnBinary64.
